(** * expo-auth-poc: the OAuth 2.0 + PKCE session core

    A shallow embedding of [src/services/auth/tokenStorage.ts],
    [src/services/auth/authService.ts] and [src/contexts/AuthContext.tsx],
    and the properties the specification states about them.

    Layout:
    - JavaScript values the code relies on (numbers with NaN, truthiness,
      [parseInt], [Number.prototype.toString], [btoa], [String.replace]);
    - the outside world (SecureStore, the clock, the browser, the
      authorization server) as oracles indexed by interaction number;
    - a small state-and-exception monad for the [async] service code;
    - the token storage service, the authentication service and the
      [AuthProvider] component;
    - the theorems. *)

From Stdlib Require Import ZArith NArith Ascii String List Lia Bool.
From Stdlib Require Import Decimal DecimalString DecimalPos DecimalN DecimalZ.
From stdpp Require Import base option list strings gmap.

Local Open Scope string_scope.
Local Open Scope Z_scope.

(* ===================================================================== *)
(** * JavaScript values *)
(* ===================================================================== *)

Module JS.

(** A JavaScript [number] restricted to what this code computes with:
    integers (millisecond timestamps, second counts) and [NaN], which
    [parseInt] produces on a string without digits.

    A JavaScript number is a double. [Int z] stands for the double that
    is the integer [z], which exists for every safe integer (see
    [isSafeInteger] below); on safe integers with a safe result the
    arithmetic below is the code's. Beyond them the code rounds to 53
    bits, and beyond [1.8e308] gives [Infinity], while the arithmetic
    here stays exact: the theorems that depend on the value of a sum, a
    product or a printed number assume safe integers. *)
Inductive number : Type :=
| Int (z : Z)
| NaN.

(** [Number.MAX_SAFE_INTEGER], [2^53 - 1]. *)
Definition MAX_SAFE_INTEGER : Z := 9007199254740991.

(** [Number.isSafeInteger] on an integer. *)
Definition isSafeInteger (z : Z) : Prop :=
  - MAX_SAFE_INTEGER ≤ z ≤ MAX_SAFE_INTEGER.

(** The largest time value of a [Date], [8.64e15] milliseconds: no
    [Date.now()] is later. *)
Definition MAX_TIME_VALUE : Z := 8640000000000000.

Definition add (a b : number) : number :=
  match a, b with
  | Int x, Int y => Int (x + y)
  | _, _ => NaN
  end.

Definition sub (a b : number) : number :=
  match a, b with
  | Int x, Int y => Int (x - y)
  | _, _ => NaN
  end.

Definition mul (a b : number) : number :=
  match a, b with
  | Int x, Int y => Int (x * y)
  | _, _ => NaN
  end.

(** [a <= b]: every comparison with [NaN] is false. *)
Definition le (a b : number) : bool :=
  match a, b with
  | Int x, Int y => x <=? y
  | _, _ => false
  end.

(** [Math.floor(a / b)] for a positive integer divisor. *)
Definition floor_div (a b : number) : number :=
  match a, b with
  | Int x, Int y => if 0 <? y then Int (x / y) else NaN
  | _, _ => NaN
  end.

(** [Math.max(a, b)]: [NaN] if either argument is. *)
Definition max (a b : number) : number :=
  match a, b with
  | Int x, Int y => Int (Z.max x y)
  | _, _ => NaN
  end.

(** ** [Number.prototype.toString()], decimal *)

Fixpoint strip_trailing_zeros (s : string) : string :=
  match s with
  | String c s' =>
      match strip_trailing_zeros s' with
      | EmptyString =>
          if Ascii.eqb c "0"%char then EmptyString else String c EmptyString
      | kept => String c kept
      end
  | EmptyString => EmptyString
  end.

(** [d.ddde+n] from the decimal digits of a positive integer: the first
    digit, the others up to the last one that is not zero, and the
    number of digits after the first as the exponent. *)
Definition exponent_notation (digits : string) : string :=
  match digits with
  | String d others =>
      String d
        (match strip_trailing_zeros others with
         | EmptyString => EmptyString
         | fraction => String "."%char fraction
         end
         ++ "e+"
         ++ NilZero.string_of_uint (Nat.to_uint (String.length others)))
  | EmptyString => "0"
  end.

(** An integer below [1e21] in magnitude is printed with all its digits;
    from [1e21] on the notation is exponential. There the code prints the
    shortest digits that read back as the same double; the digits here
    are the integer's own, which are the code's when the integer has at
    most 15 significant digits, as [1e21] itself. *)
Definition toString (n : number) : string :=
  match n with
  | Int z =>
      if Z.abs z <? 1000000000000000000000
      then NilZero.string_of_int (Z.to_int z)
      else (if z <? 0 then "-" else "")
           ++ exponent_notation
                (NilEmpty.string_of_uint (Pos.to_uint (Z.to_pos (Z.abs z))))
  | NaN => "NaN"
  end.

(** [!!s] for a value of type [string | null | undefined]: [null],
    [undefined] (both [None]) and the empty string are falsy. *)
Definition truthy (s : option string) : bool :=
  match s with
  | Some "" => false
  | Some _ => true
  | None => false
  end.

(** [!!s] for a [string]. *)
Definition nonempty (s : string) : bool := truthy (Some s).

(** [a || b] where [a : string | undefined] and [b : string]. *)
Definition or_else (a : option string) (b : string) : string :=
  match a with
  | Some s => if nonempty s then s else b
  | None => b
  end.

(** [a || undefined]. *)
Definition or_undefined (a : option string) : option string :=
  if truthy a then a else None.

(** ** [parseInt(s, 10)] *)

(** A string is modelled by its UTF-8 encoding, one [ascii] per byte.
    [parseInt] trims the WhiteSpace and LineTerminator code points of
    ECMAScript before it reads: one byte for the ASCII ones, two for
    U+00A0 and three for the others. *)

(** TAB, LF, VT, FF, CR (codes 9 to 13) and the space. *)
Definition is_white_space (c : ascii) : bool :=
  let code := N_of_ascii c in
  ((9 <=? code) && (code <=? 13) || (code =? 32))%N.

(** U+00A0, the no-break space: bytes C2 A0. *)
Definition is_white_space2 (c1 c2 : ascii) : bool :=
  ((N_of_ascii c1 =? 194) && (N_of_ascii c2 =? 160))%N.

(** U+1680 (E1 9A 80), U+2000 to U+200A (E2 80 80 to E2 80 8A), U+2028
    and U+2029 (E2 80 A8, E2 80 A9), U+202F (E2 80 AF), U+205F
    (E2 81 9F), U+3000 (E3 80 80) and U+FEFF (EF BB BF). *)
Definition is_white_space3 (c1 c2 c3 : ascii) : bool :=
  let '(b1, b2, b3) := (N_of_ascii c1, N_of_ascii c2, N_of_ascii c3) in
  ((b1 =? 225) && (b2 =? 154) && (b3 =? 128)
   || (b1 =? 226) && (b2 =? 128)
      && ((128 <=? b3) && (b3 <=? 138) || (b3 =? 168) || (b3 =? 169)
          || (b3 =? 175))
   || (b1 =? 226) && (b2 =? 129) && (b3 =? 159)
   || (b1 =? 227) && (b2 =? 128) && (b3 =? 128)
   || (b1 =? 239) && (b2 =? 187) && (b3 =? 191))%N.

(** The value of a decimal digit (codes 48 to 57). *)
Definition digit_value (c : ascii) : option N :=
  let code := N_of_ascii c in
  if ((48 <=? code) && (code <=? 57))%N then Some (code - 48)%N else None.

Fixpoint skip_white_space (s : string) : string :=
  match s with
  | String c1 s1 =>
      if is_white_space c1 then skip_white_space s1
      else
        match s1 with
        | String c2 s2 =>
            if is_white_space2 c1 c2 then skip_white_space s2
            else
              match s2 with
              | String c3 s3 =>
                  if is_white_space3 c1 c2 c3 then skip_white_space s3 else s
              | EmptyString => s
              end
        | EmptyString => s
        end
  | EmptyString => s
  end.

(** The value of the longest prefix of decimal digits, [None] when that
    prefix is empty and nothing was read before. *)
Fixpoint parse_digits (s : string) (acc : option N) : option N :=
  match s with
  | String c s' =>
      match digit_value c with
      | Some d => parse_digits s' (Some (10 * default 0 acc + d))%N
      | None => acc
      end
  | EmptyString => acc
  end.

(** [parseInt(s, 10)]: white space, a sign, then the longest run of
    decimal digits; [NaN] when there is no digit. The value is exact,
    which is the code's for a safe integer. *)
Definition parseInt (s : string) : number :=
  let s1 := skip_white_space s in
  let '(negative, s2) :=
    match s1 with
    | String "-" r => (true, r)
    | String "+" r => (false, r)
    | _ => (false, s1)
    end in
  match parse_digits s2 None with
  | Some v => Int (if negative : bool then - Z.of_N v else Z.of_N v)
  | None => NaN
  end.

(** ** [btoa] and the base64url conversion *)

Definition base64_alphabet : list ascii :=
  list_ascii_of_string
    "ABCDEFGHIJKLMNOPQRSTUVWXYZabcdefghijklmnopqrstuvwxyz0123456789+/".

Definition base64_char (sextet : N) : ascii :=
  nth (N.to_nat sextet) base64_alphabet "="%char.

(** [btoa] on the char codes of a binary string. *)
Fixpoint btoa_codes (bs : list N) : list ascii :=
  match bs with
  | [] => []
  | [a] =>
      [base64_char (a / 4); base64_char ((a mod 4) * 16); "="; "="]%char%N
  | [a; b] =>
      [base64_char (a / 4); base64_char ((a mod 4) * 16 + b / 16);
       base64_char ((b mod 16) * 4); "="]%char%N
  | a :: b :: c :: rest =>
      [base64_char (a / 4); base64_char ((a mod 4) * 16 + b / 16);
       base64_char ((b mod 16) * 4 + c / 64); base64_char (c mod 64)]%N
      ++ btoa_codes rest
  end.

Definition btoa (s : string) : string :=
  string_of_list_ascii (btoa_codes (map N_of_ascii (list_ascii_of_string s))).

(** [String.fromCharCode(...bytes)] for a [Uint8Array]: a binary string,
    kept as one byte per character on its way to [btoa]. *)
Definition fromCharCode (bytes : list Byte.byte) : string :=
  string_of_list_byte bytes.

(** [s.replace(/c/g, d)] for a single-character pattern and replacement. *)
Fixpoint replace_all (c d : ascii) (s : string) : string :=
  match s with
  | String x s' => String (if Ascii.eqb x c then d else x) (replace_all c d s')
  | EmptyString => EmptyString
  end.

(** [s.replace(/c/g, '')]. *)
Fixpoint remove_all (c : ascii) (s : string) : string :=
  match s with
  | String x s' =>
      if Ascii.eqb x c then remove_all c s' else String x (remove_all c s')
  | EmptyString => EmptyString
  end.

End JS.

Import JS (number, Int, NaN).

(* ===================================================================== *)
(** * [src/types/auth.types.ts] *)
(* ===================================================================== *)

Record AuthTokens : Type := {
  accessToken : string;
  refreshToken : option string;
  idToken : option string;
  expiresIn : number;
  tokenType : string;
}.

Record User : Type := {
  id : string;
  email : string;
  firstName : option string;
  lastName : option string;
  profilePictureUrl : option string;
  organizationId : option string;
}.

Record AuthState : Type := {
  user : option User;
  tokens : option AuthTokens;
  isLoading : bool;
  isAuthenticated : bool;
  error : option string;
}.

Record TokenRefreshResponse : Type := {
  access_token : string;
  refresh_token : option string;
  id_token : option string;
  expires_in : number;
  token_type : string;
}.

Record UserInfoResponse : Type := {
  sub : string;
  email_ : string;
  email_verified : option bool;
  given_name : option string;
  family_name : option string;
  picture : option string;
  organization_id : option string;
}.

Inductive AuthErrorType : Type :=
| NETWORK_ERROR
| INVALID_CREDENTIALS
| TOKEN_EXPIRED
| REFRESH_FAILED
| USER_CANCELLED
| UNKNOWN_ERROR.

(** What a [throw] carries: a plain [Error] or the [AuthError] subclass,
    which keeps the error it wraps. *)
#[warnings="-register-all"]
Inductive Exn : Type :=
| JsError (message : string)
| AuthError (type : AuthErrorType) (message : string)
            (originalError : option Exn).

Definition message_of (e : Exn) : string :=
  match e with
  | JsError m => m
  | AuthError _ m _ => m
  end.

(** The outcome of an awaited promise. *)
Inductive Result (A : Type) : Type :=
| Ok (a : A)
| Throw (e : Exn).
Arguments Ok {A} a.
Arguments Throw {A} e.

(* ===================================================================== *)
(** * The outside world *)
(* ===================================================================== *)

(** What [fetch] followed by [response.ok] / [response.json()] can give. *)
Inductive FetchOutcome (A : Type) : Type :=
| FetchRejects (e : Exn)
    (** [fetch] itself rejects (no network) *)
| HttpError (status : Z) (error_description : option string)
    (** [!response.ok]; the body's [error_description], if it parses and
        has one *)
| HttpOk (json : Result A).
    (** [response.ok]; [response.json()] resolves or rejects *)
Arguments FetchRejects {A} e.
Arguments HttpError {A} status error_description.
Arguments HttpOk {A} json.

(** The result of [AuthRequest.promptAsync]. *)
Inductive AuthSessionResult : Type :=
| ResultCancel
| ResultDismiss
| ResultOpened
| ResultLocked
| ResultError
| ResultSuccess (code : option string).

Record AuthRequest : Type := {
  req_clientId : string;
  req_redirectUri : string;
  req_scopes : list string;
  req_usePKCE : bool;
  req_codeChallenge : string;
  req_codeChallengeMethod : string;
}.

(** [WORKOS_CONFIG] and [SECURITY_CONFIG] of [src/config/environment.ts]. *)
Record Config : Type := {
  clientId : string;
  redirectUri : string;
  scopes : list string;
  tokenRefreshBuffer : number;
}.

Definition default_config : Config := {|
  clientId := "your_workos_client_id";
  redirectUri := "exp://localhost:8081";
  scopes := ["openid"; "profile"; "email"];
  tokenRefreshBuffer := Int 300;
|}.

(** Everything the code does not control.  Each call that leaves the
    program (a SecureStore access, a clock read, a random draw, the browser
    prompt, an HTTP request) is one interaction; the oracles say what the
    [n]-th interaction yields. *)
Record Env : Type := {
  config : Config;
  date_now : nat → Z;
  secure_store_rejects : nat → bool;
  random_byte : nat → nat → Byte.byte;
  digest_sha256_base64 : string → string;
  prompt_async : nat → AuthRequest → Result AuthSessionResult;
  token_endpoint : nat → list (string * string) → FetchOutcome TokenRefreshResponse;
  userinfo_endpoint : nat → string → FetchOutcome UserInfoResponse;
}.

(** The part of the world the service code changes: the encrypted
    key/value store, and how many interactions have happened. *)
Record Sys : Type := {
  store : gmap string string;
  tick : nat;
}.

(* ===================================================================== *)
(** * A monad for the [async] service code *)
(* ===================================================================== *)

Definition M (A : Type) : Type := Sys → Result A * Sys.

Definition ret {A} (a : A) : M A := λ w, (Ok a, w).

Definition throw {A} (e : Exn) : M A := λ w, (Throw e, w).

Definition bind {A B} (m : M A) (k : A → M B) : M B :=
  λ w, match m w with
       | (Ok a, w') => k a w'
       | (Throw e, w') => (Throw e, w')
       end.

(** [try { m } catch (e) { h e }]. *)
Definition try_catch {A} (m : M A) (h : Exn → M A) : M A :=
  λ w, match m w with
       | (Ok a, w') => (Ok a, w')
       | (Throw e, w') => h e w'
       end.

#[export] Instance M_ret : MRet M := @ret.
#[export] Instance M_bind : MBind M := λ A B k m, bind m k.

(** [Promise.all([...])]: every promise of the array has been started, so
    every one runs; the result rejects with the first rejection. *)
Fixpoint promise_all {A} (ps : list (M A)) : M (list A) :=
  match ps with
  | [] => ret []
  | p :: ps' =>
      λ w, let '(r, w1) := p w in
           let '(rs, w2) := promise_all ps' w1 in
           (match r, rs with
            | Ok a, Ok l => Ok (a :: l)
            | Throw e, _ => Throw e
            | Ok _, Throw e => Throw e
            end, w2)
  end.

(** Array destructuring [const [.., x, ..] = values]: a missing slot is
    [undefined]. *)
Definition slot (values : list (option string)) (i : nat) : option string :=
  mjoin (values !! i).

Definition next (w : Sys) : Sys := {| store := store w; tick := S (tick w) |}.

(* ===================================================================== *)
(** * [src/services/auth/tokenStorage.ts] *)
(* ===================================================================== *)

Module TokenStorage.

Module STORAGE_KEYS.
Definition ACCESS_TOKEN : string := "workos_access_token".
Definition REFRESH_TOKEN : string := "workos_refresh_token".
Definition ID_TOKEN : string := "workos_id_token".
Definition EXPIRES_AT : string := "workos_expires_at".
Definition TOKEN_TYPE : string := "workos_token_type".
End STORAGE_KEYS.
Import STORAGE_KEYS.

Section Services.

Variable env : Env.

(** ** Primitives: one interaction each *)

Definition Date_now : M Z :=
  λ w, (Ok (date_now env (tick w)), next w).

Definition setItemAsync (key value : string) : M unit :=
  λ w, if secure_store_rejects env (tick w)
       then (Throw (JsError "SecureStore: setItemAsync failed"), next w)
       else (Ok (), {| store := <[key := value]> (store w); tick := S (tick w) |}).

Definition getItemAsync (key : string) : M (option string) :=
  λ w, if secure_store_rejects env (tick w)
       then (Throw (JsError "SecureStore: getItemAsync failed"), next w)
       else (Ok (store w !! key), next w).

Definition deleteItemAsync (key : string) : M unit :=
  λ w, if secure_store_rejects env (tick w)
       then (Throw (JsError "SecureStore: deleteItemAsync failed"), next w)
       else (Ok (), {| store := delete key (store w); tick := S (tick w) |}).

(** ** [storeTokens] *)

Definition storeTokens (tokens : AuthTokens) : M unit :=
  try_catch
    (now ← Date_now;
     let expiresAt := JS.add (Int now) (JS.mul (expiresIn tokens) (Int 1000)) in
     _ ← promise_all
       [ setItemAsync ACCESS_TOKEN (accessToken tokens);
         setItemAsync EXPIRES_AT (JS.toString expiresAt);
         setItemAsync TOKEN_TYPE (tokenType tokens);
         match refreshToken tokens with
         | Some rt => if JS.nonempty rt then setItemAsync REFRESH_TOKEN rt
                      else mret ()
         | None => mret ()
         end;
         match idToken tokens with
         | Some it => if JS.nonempty it then setItemAsync ID_TOKEN it
                      else mret ()
         | None => mret ()
         end ];
     mret ())
    (λ _, throw (JsError "Failed to securely store authentication tokens")).

(** ** [getTokens] *)

Definition getTokens : M (option AuthTokens) :=
  try_catch
    (values ← promise_all
       [ getItemAsync ACCESS_TOKEN;
         getItemAsync REFRESH_TOKEN;
         getItemAsync ID_TOKEN;
         getItemAsync EXPIRES_AT;
         getItemAsync TOKEN_TYPE ];
     let accessToken := slot values 0 in
     let refreshToken := slot values 1 in
     let idToken := slot values 2 in
     let expiresAt := slot values 3 in
     let tokenType := slot values 4 in
     if negb (JS.truthy accessToken) || negb (JS.truthy expiresAt)
        || negb (JS.truthy tokenType)
     then mret None
     else
       let expiresAtTimestamp := JS.parseInt (default "" expiresAt) in
       now ← Date_now;
       let expiresIn :=
         JS.max (Int 0)
                (JS.floor_div (JS.sub expiresAtTimestamp (Int now))
                              (Int 1000)) in
       mret (Some {| accessToken := default "" accessToken;
                     refreshToken := JS.or_undefined refreshToken;
                     idToken := JS.or_undefined idToken;
                     expiresIn := expiresIn;
                     tokenType := default "" tokenType |}))
    (λ _, throw (JsError "Failed to retrieve authentication tokens")).

(** ** [isTokenExpired] *)

Definition isTokenExpired (bufferSeconds : number) : M bool :=
  try_catch
    (expiresAt ← getItemAsync EXPIRES_AT;
     if JS.truthy expiresAt then
       let expiresAtTimestamp := JS.parseInt (default "" expiresAt) in
       now ← Date_now;
       let bufferMs := JS.mul bufferSeconds (Int 1000) in
       mret (JS.le (JS.sub expiresAtTimestamp (Int now)) bufferMs)
     else mret true)
    (λ _, mret true).

(** ** [clearTokens] *)

Definition clearTokens : M unit :=
  try_catch
    (_ ← promise_all
       [ deleteItemAsync ACCESS_TOKEN;
         deleteItemAsync REFRESH_TOKEN;
         deleteItemAsync ID_TOKEN;
         deleteItemAsync EXPIRES_AT;
         deleteItemAsync TOKEN_TYPE ];
     mret ())
    (λ _, throw (JsError "Failed to clear authentication tokens")).

(** ** [getValidAccessToken] of the storage service (no refresh) *)

Definition getValidAccessToken : M (option string) :=
  try_catch
    (expired ← isTokenExpired (Int 300);
     if expired : bool then mret None
     else getItemAsync ACCESS_TOKEN)
    (λ _, mret None).

End Services.

End TokenStorage.

(* ===================================================================== *)
(** * [src/services/auth/authService.ts] *)
(* ===================================================================== *)

Module AuthService.

Import TokenStorage.

Section Services.

Variable env : Env.

Definition getRandomBytes (n : nat) : M (list Byte.byte) :=
  λ w, (Ok (map (random_byte env (tick w)) (seq 0 n)), next w).

(** [.replace(/\+/g, '-').replace(/\//g, '_').replace(/=/g, '')]. *)
Definition to_base64url (base64 : string) : string :=
  JS.remove_all "=" (JS.replace_all "/" "_" (JS.replace_all "+" "-" base64)).

Definition generateCodeVerifier : M string :=
  randomBytes ← getRandomBytes 32;
  let base64 := JS.btoa (JS.fromCharCode randomBytes) in
  mret (to_base64url base64).

Definition generateCodeChallenge (verifier : string) : M string :=
  let hash := digest_sha256_base64 env verifier in
  mret (to_base64url hash).

Definition fetch_token (body : list (string * string))
  : M (FetchOutcome TokenRefreshResponse) :=
  λ w, (Ok (token_endpoint env (tick w) body), next w).

Definition fetch_userinfo (authorization : string)
  : M (FetchOutcome UserInfoResponse) :=
  λ w, (Ok (userinfo_endpoint env (tick w) authorization), next w).

Definition promptAsync (request : AuthRequest) : M AuthSessionResult :=
  λ w, (prompt_async env (tick w) request, next w).

(** ** [exchangeCodeForTokens] *)

Definition exchangeCodeForTokens (code codeVerifier : string) : M AuthTokens :=
  try_catch
    (tokenResponse ← fetch_token
       [ ("grant_type", "authorization_code");
         ("client_id", clientId (config env));
         ("code", code);
         ("code_verifier", codeVerifier);
         ("redirect_uri", redirectUri (config env)) ];
     match tokenResponse with
     | FetchRejects e => throw e
     | HttpError status error_description =>
         throw (JsError
                  (JS.or_else error_description
                     ("Token exchange failed: " +:+ JS.toString (Int status))))
     | HttpOk (Throw e) => throw e
     | HttpOk (Ok tokenData) =>
         mret {| accessToken := access_token tokenData;
                 refreshToken := refresh_token tokenData;
                 idToken := id_token tokenData;
                 expiresIn := expires_in tokenData;
                 tokenType := token_type tokenData |}
     end)
    (λ error,
       throw (AuthError NETWORK_ERROR
                "Failed to exchange authorization code for tokens"
                (Some error))).

(** ** [fetchUserInfo] *)

Definition fetchUserInfo (accessToken : string) : M User :=
  try_catch
    (response ← fetch_userinfo ("Bearer " +:+ accessToken);
     match response with
     | FetchRejects e => throw e
     | HttpError status _ =>
         throw (JsError
                  ("Failed to fetch user info: " +:+ JS.toString (Int status)))
     | HttpOk (Throw e) => throw e
     | HttpOk (Ok userInfo) =>
         mret {| id := sub userInfo;
                 email := email_ userInfo;
                 firstName := given_name userInfo;
                 lastName := family_name userInfo;
                 profilePictureUrl := picture userInfo;
                 organizationId := organization_id userInfo |}
     end)
    (λ error,
       throw (AuthError NETWORK_ERROR "Failed to fetch user information"
                (Some error))).

(** ** [loginWithWorkOS] *)

Definition loginWithWorkOS : M (AuthTokens * User) :=
  try_catch
    (codeVerifier ← generateCodeVerifier;
     codeChallenge ← generateCodeChallenge codeVerifier;
     let authRequest :=
       {| req_clientId := clientId (config env);
          req_redirectUri := redirectUri (config env);
          req_scopes := scopes (config env);
          req_usePKCE := false;
          req_codeChallenge := codeChallenge;
          req_codeChallengeMethod := "S256" |} in
     authResult ← promptAsync authRequest;
     match authResult with
     | ResultCancel | ResultDismiss =>
         throw (AuthError USER_CANCELLED
                  "User cancelled the authentication process" None)
     | ResultOpened | ResultLocked | ResultError =>
         throw (AuthError INVALID_CREDENTIALS "Authentication failed" None)
     | ResultSuccess code =>
         if negb (JS.truthy code) then
           throw (AuthError INVALID_CREDENTIALS
                    "No authorization code received" None)
         else
           tokens ← exchangeCodeForTokens (default "" code) codeVerifier;
           _ ← storeTokens env tokens;
           user ← fetchUserInfo (accessToken tokens);
           mret (tokens, user)
     end)
    (λ error,
       match error with
       | AuthError _ _ _ => throw error
       | JsError _ =>
           throw (AuthError UNKNOWN_ERROR
                    "An unexpected error occurred during login" (Some error))
       end).

(** ** [refreshAccessToken] *)

Definition refreshAccessToken (refreshToken : string) : M AuthTokens :=
  try_catch
    (response ← fetch_token
       [ ("grant_type", "refresh_token");
         ("client_id", clientId (config env));
         ("refresh_token", refreshToken) ];
     match response with
     | FetchRejects e => throw e
     | HttpError status error_description =>
         throw (JsError
                  (JS.or_else error_description
                     ("Token refresh failed: " +:+ JS.toString (Int status))))
     | HttpOk (Throw e) => throw e
     | HttpOk (Ok tokenData) =>
         let tokens :=
           {| accessToken := access_token tokenData;
              refreshToken :=
                Some (JS.or_else (refresh_token tokenData) refreshToken);
              idToken := id_token tokenData;
              expiresIn := expires_in tokenData;
              tokenType := token_type tokenData |} in
         _ ← storeTokens env tokens;
         mret tokens
     end)
    (λ error,
       throw (AuthError REFRESH_FAILED "Failed to refresh access token"
                (Some error))).

(** ** [logout] *)

Definition logout : M unit :=
  try_catch (clearTokens env)
    (λ error, throw (AuthError UNKNOWN_ERROR "Failed to log out" (Some error))).

(** ** [restoreSession] *)

Definition restoreSession : M (option (AuthTokens * User)) :=
  try_catch
    (tokens ← getTokens env;
     match tokens with
     | None => mret None
     | Some tokens =>
         expired ← isTokenExpired env (tokenRefreshBuffer (config env));
         if expired && JS.truthy (refreshToken tokens) then
           try_catch
             (newTokens ← refreshAccessToken (default "" (refreshToken tokens));
              user ← fetchUserInfo (accessToken newTokens);
              mret (Some (newTokens, user)))
             (λ _, _ ← clearTokens env; mret None)
         else if expired then
           _ ← clearTokens env; mret None
         else
           user ← fetchUserInfo (accessToken tokens);
           mret (Some (tokens, user))
     end)
    (λ _, _ ← clearTokens env; mret None).

(** ** [getValidAccessToken] *)

Definition getValidAccessToken : M (option string) :=
  try_catch
    (tokens ← getTokens env;
     match tokens with
     | None => mret None
     | Some tokens =>
         expired ← isTokenExpired env (tokenRefreshBuffer (config env));
         if expired && JS.truthy (refreshToken tokens) then
           newTokens ← refreshAccessToken (default "" (refreshToken tokens));
           mret (Some (accessToken newTokens))
         else if expired then mret None
         else mret (Some (accessToken tokens))
     end)
    (λ _, mret None).

End Services.

End AuthService.

(* ===================================================================== *)
(** * [src/contexts/AuthContext.tsx]: the [AuthProvider] component *)
(* ===================================================================== *)

(** The component's [useState] cell, together with every value it held
    before (most recent first), so that intermediate states can be spoken
    about. *)
Record Provider : Type := {
  authState : AuthState;
  earlier : list AuthState;
}.

Definition states (p : Provider) : list AuthState := authState p :: earlier p.

(** [useState<AuthState>({...})]. *)
Definition initialState : AuthState := {|
  user := None;
  tokens := None;
  isLoading := true;
  isAuthenticated := false;
  error := None;
|}.

Definition mount : Provider := {| authState := initialState; earlier := [] |}.

(** [setAuthState(updater)]. *)
Definition setAuthState (f : AuthState → AuthState) (p : Provider) : Provider :=
  {| authState := f (authState p); earlier := authState p :: earlier p |}.

Definition setAuthSuccess (u : User) (t : AuthTokens) : Provider → Provider :=
  setAuthState (λ _, {| user := Some u;
                        tokens := Some t;
                        isLoading := false;
                        isAuthenticated := true;
                        error := None |}).

Definition setAuthLoggedOut : Provider → Provider :=
  setAuthState (λ _, {| user := None;
                        tokens := None;
                        isLoading := false;
                        isAuthenticated := false;
                        error := None |}).

Definition setAuthError (err : string) : Provider → Provider :=
  setAuthState (λ prev, {| user := user prev;
                           tokens := tokens prev;
                           isLoading := false;
                           isAuthenticated := isAuthenticated prev;
                           error := Some err |}).

Definition clearError : Provider → Provider :=
  setAuthState (λ prev, {| user := user prev;
                           tokens := tokens prev;
                           isLoading := isLoading prev;
                           isAuthenticated := isAuthenticated prev;
                           error := None |}).

(** [setAuthState((prev) => ({ ...prev, isLoading: true, error: null }))]. *)
Definition setAuthBusy : Provider → Provider :=
  setAuthState (λ prev, {| user := user prev;
                           tokens := tokens prev;
                           isLoading := true;
                           isAuthenticated := isAuthenticated prev;
                           error := None |}).

(** [setAuthState((prev) => ({ ...prev, tokens: newTokens, error: null }))]. *)
Definition setAuthTokens (newTokens : AuthTokens) : Provider → Provider :=
  setAuthState (λ prev, {| user := user prev;
                           tokens := Some newTokens;
                           isLoading := isLoading prev;
                           isAuthenticated := isAuthenticated prev;
                           error := None |}).

(** The message [login]'s [catch] block selects. *)
Definition loginErrorMessage (e : Exn) : string :=
  match e with
  | AuthError USER_CANCELLED _ _ => "Login was cancelled"
  | AuthError NETWORK_ERROR _ _ =>
      "Network error. Please check your connection and try again"
  | AuthError INVALID_CREDENTIALS _ _ =>
      "Authentication failed. Please try again"
  | AuthError _ message _ => message
  | JsError _ => "An unexpected error occurred during login"
  end.

Module AuthContext.

Section AuthProvider.

Variable env : Env.

Definition login (w : Sys) (p : Provider) : Sys * Provider :=
  let p := setAuthBusy p in
  match AuthService.loginWithWorkOS env w with
  | (Ok (tokens, user), w') => (w', setAuthSuccess user tokens p)
  | (Throw error, w') => (w', setAuthError (loginErrorMessage error) p)
  end.

Definition logout (w : Sys) (p : Provider) : Sys * Provider :=
  let p := setAuthBusy p in
  match AuthService.logout env w with
  | (Ok _, w') => (w', setAuthLoggedOut p)
  | (Throw _, w') => (w', setAuthLoggedOut p)
  end.

Definition refreshToken (w : Sys) (p : Provider) : Sys * Provider :=
  match
    (tokens ← TokenStorage.getTokens env;
     if negb (JS.truthy (tokens ≫= refreshToken)) then
       throw (JsError "No refresh token available")
     else
       AuthService.refreshAccessToken env (default "" (tokens ≫= refreshToken))) w
  with
  | (Ok newTokens, w') => (w', setAuthTokens newTokens p)
  | (Throw _, w') =>
      let '(w'', p') := logout w' p in
      (w'', setAuthError "Your session has expired. Please log in again" p')
  end.

(** The [useEffect] that runs once when the component mounts. *)
Definition attemptSessionRestore (w : Sys) (p : Provider) : Sys * Provider :=
  match AuthService.restoreSession env w with
  | (Ok (Some (tokens, user)), w') => (w', setAuthSuccess user tokens p)
  | (Ok None, w') => (w', setAuthLoggedOut p)
  | (Throw _, w') => (w', setAuthLoggedOut p)
  end.

End AuthProvider.

End AuthContext.

(** What the context value exposes, plus the mount effect. *)
Inductive Operation : Type :=
| OpLogin
| OpLogout
| OpRefreshToken
| OpClearError
| OpSessionRestore.

Definition perform (env : Env) (op : Operation) (w : Sys) (p : Provider)
  : Sys * Provider :=
  match op with
  | OpLogin => AuthContext.login env w p
  | OpLogout => AuthContext.logout env w p
  | OpRefreshToken => AuthContext.refreshToken env w p
  | OpClearError => (w, clearError p)
  | OpSessionRestore => AuthContext.attemptSessionRestore env w p
  end.

(** The provider states a session can be in: the component mounts, then
    operations run one after another, each against whatever the outside
    world is at that moment. *)
Inductive reachable : Provider → Prop :=
| reachable_mount : reachable mount
| reachable_perform env op w p :
    reachable p → reachable (perform env op w p).2.

(** The spec's names for the controller's states. *)
Definition Idle (s : AuthState) : Prop :=
  user s = None ∧ tokens s = None ∧ isLoading s = false
  ∧ isAuthenticated s = false.

(** [isAuthenticated == (user != null && tokens != null)]. *)
Definition authenticated_iff_user_and_tokens (s : AuthState) : Prop :=
  isAuthenticated s = bool_decide (user s ≠ None) && bool_decide (tokens s ≠ None).

(* ===================================================================== *)
(** * Vocabulary of the statements *)
(* ===================================================================== *)

(** The value of a decimal numeral read most significant digit first,
    continuing from [acc]: what [JS.parse_digits] computes on its
    printed form. *)
Fixpoint uint_value (d : uint) (acc : N) : N :=
  match d with
  | Nil => acc
  | D0 d => uint_value d (10 * acc + 0)
  | D1 d => uint_value d (10 * acc + 1)
  | D2 d => uint_value d (10 * acc + 2)
  | D3 d => uint_value d (10 * acc + 3)
  | D4 d => uint_value d (10 * acc + 4)
  | D5 d => uint_value d (10 * acc + 5)
  | D6 d => uint_value d (10 * acc + 6)
  | D7 d => uint_value d (10 * acc + 7)
  | D8 d => uint_value d (10 * acc + 8)
  | D9 d => uint_value d (10 * acc + 9)
  end%N.

(** [A-Z], [a-z], [0-9], [-] and [_]. *)
Definition is_base64url_char (c : ascii) : bool :=
  let n := N_of_ascii c in
  ((65 <=? n) && (n <=? 90) || (97 <=? n) && (n <=? 122)
   || (48 <=? n) && (n <=? 57) || (n =? 45) || (n =? 95))%N.

Fixpoint all_chars (P : ascii → bool) (s : string) : bool :=
  match s with
  | String c s' => P c && all_chars P s'
  | EmptyString => true
  end.

(** What the first two [replace] calls of [to_base64url] do to one
    character. *)
Definition url_char (c : ascii) : ascii :=
  let c1 := if Ascii.eqb c "+" then "-"%char else c in
  if Ascii.eqb c1 "/" then "_"%char else c1.

(** The string [storeTokens] writes under [EXPIRES_AT] when the clock
    reads [now]. *)
Definition expiresAt_of (now : Z) (t : AuthTokens) : string :=
  JS.toString (JS.add (Int now) (JS.mul (expiresIn t) (Int 1000))).

(** The state [setAuthLoggedOut] installs. *)
Definition loggedOutState : AuthState := {|
  user := None;
  tokens := None;
  isLoading := false;
  isAuthenticated := false;
  error := None;
|}.

(** The five keys are absent from the store. *)
Definition cleared (m : gmap string string) : Prop :=
  m !! TokenStorage.STORAGE_KEYS.ACCESS_TOKEN = None
  ∧ m !! TokenStorage.STORAGE_KEYS.REFRESH_TOKEN = None
  ∧ m !! TokenStorage.STORAGE_KEYS.ID_TOKEN = None
  ∧ m !! TokenStorage.STORAGE_KEYS.EXPIRES_AT = None
  ∧ m !! TokenStorage.STORAGE_KEYS.TOKEN_TYPE = None.

(** The invariant the reachable states satisfy; it implies
    [authenticated_iff_user_and_tokens] and, unlike it, is preserved by
    [setAuthTokens]. *)
Definition coherent (s : AuthState) : Prop :=
  isAuthenticated s = bool_decide (user s ≠ None)
  ∧ (user s ≠ None → tokens s ≠ None).

(** The form body [refreshAccessToken] posts. *)
Definition refresh_request (env : Env) (rt : string) : list (string * string) :=
  [ ("grant_type", "refresh_token");
    ("client_id", clientId (config env));
    ("refresh_token", rt) ].

(** The secure store accepts every call from interaction [n] on. *)
Definition accepting_from (env : Env) (n : nat) : Prop :=
  ∀ k, (n ≤ k)%nat → secure_store_rejects env k = false.

(** ** Concrete worlds used to exercise the statements *)

Module Scenario.

Definition offline {A} : FetchOutcome A := FetchRejects (JsError "Network request failed").

(** A world with a working secure store and a clock standing at [now]. *)
Definition world (now : Z) (prompt : Result AuthSessionResult)
    (token : FetchOutcome TokenRefreshResponse)
    (userinfo : FetchOutcome UserInfoResponse) : Env := {|
  config := default_config;
  date_now := λ _, now;
  secure_store_rejects := λ _, false;
  random_byte := λ _ _, Byte.x2a;
  digest_sha256_base64 := λ _, "47DEQpj8HBSa+/TImW+5JCeuQeRkm5NMpJWZG3hSuFU=";
  prompt_async := λ _ _, prompt;
  token_endpoint := λ _ _, token;
  userinfo_endpoint := λ _ _, userinfo;
|}.

(** The same world with a secure store that rejects every call. *)
Definition broken_store (e : Env) : Env := {|
  config := config e;
  date_now := date_now e;
  secure_store_rejects := λ _, true;
  random_byte := random_byte e;
  digest_sha256_base64 := digest_sha256_base64 e;
  prompt_async := prompt_async e;
  token_endpoint := token_endpoint e;
  userinfo_endpoint := userinfo_endpoint e;
|}.


(** The same world with a clock that starts where [e]'s stands and
    advances 100 ms with each interaction, for the first hour's worth
    of them. *)
Definition ticking (e : Env) : Env := {|
  config := config e;
  date_now := λ k, date_now e 0%nat + 100 * (Z.of_nat k `min` 36000);
  secure_store_rejects := secure_store_rejects e;
  random_byte := random_byte e;
  digest_sha256_base64 := digest_sha256_base64 e;
  prompt_async := prompt_async e;
  token_endpoint := token_endpoint e;
  userinfo_endpoint := userinfo_endpoint e;
|}.

Definition alice : UserInfoResponse := {|
  sub := "user_01";
  email_ := "alice@example.com";
  email_verified := Some true;
  given_name := Some "Alice";
  family_name := None;
  picture := None;
  organization_id := None;
|}.

(** The token set of the spec's storage scenario. *)
Definition a1 : AuthTokens := {|
  accessToken := "a1";
  refreshToken := None;
  idToken := None;
  expiresIn := Int 3600;
  tokenType := "Bearer";
|}.

(** A refresh response for a token that lives one minute and carries no
    new refresh token. *)
Definition short_lived : TokenRefreshResponse := {|
  access_token := "a2";
  refresh_token := None;
  id_token := None;
  expires_in := Int 60;
  token_type := "Bearer";
|}.

Definition empty : Sys := {| store := ∅; tick := 0 |}.

(** A store holding a token that expires at [expiresAt] (a millisecond
    timestamp, as a string) and, possibly, a refresh token. *)
Definition holding (expiresAt : string) (refresh : option string) : Sys := {|
  store :=
    let m : gmap string string :=
      {[ TokenStorage.STORAGE_KEYS.ACCESS_TOKEN := "a1";
         TokenStorage.STORAGE_KEYS.EXPIRES_AT := expiresAt;
         TokenStorage.STORAGE_KEYS.TOKEN_TYPE := "Bearer" ]} in
    match refresh with
    | Some r => <[TokenStorage.STORAGE_KEYS.REFRESH_TOKEN := r]> m
    | None => m
    end;
  tick := 0;
|}.

(** A store in which an earlier session left its refresh token. *)
Definition stale : Sys := {|
  store := {[ TokenStorage.STORAGE_KEYS.REFRESH_TOKEN := "r0" ]};
  tick := 0;
|}.

(** The user dismisses the browser; no network. *)
Definition cancelling : Env := world 1000000 (Ok ResultCancel) offline offline.

(** The token endpoint answers a refresh with [short_lived]. *)
Definition refreshing : Env :=
  world 1000000 (Ok ResultCancel) (HttpOk (Ok short_lived)) (HttpOk (Ok alice)).

(** The browser returns a code, but the token endpoint is unreachable. *)
Definition unreachable_server : Env :=
  world 1000000 (Ok (ResultSuccess (Some "code_01"))) offline
        (HttpOk (Ok alice)).

(** The provider once the mount effect found no stored session. *)
Definition idle : Provider := setAuthLoggedOut mount.

End Scenario.

(* ===================================================================== *)
(** * [src/config/environment.ts] *)
(* ===================================================================== *)

Module Environment.

(** [APP_CONFIG]. *)
Record AppConfig : Type := {
  name : string;
  version : string;
  environment : string;
  debugMode : bool;
}.

(** [process.env.NAME || fallback], [process.env] being a map from
    variable names to their values. *)
Definition env_or (process_env : gmap string string) (name fallback : string)
  : string :=
  JS.or_else (process_env !! name) fallback.

(** [WORKOS_CONFIG], with [SECURITY_CONFIG.tokenRefreshBuffer]. *)
Definition WORKOS_CONFIG (process_env : gmap string string) : Config := {|
  clientId :=
    env_or process_env "EXPO_PUBLIC_WORKOS_CLIENT_ID" "your_workos_client_id";
  redirectUri :=
    env_or process_env "EXPO_PUBLIC_WORKOS_REDIRECT_URI" "exp://localhost:8081";
  scopes := ["openid"; "profile"; "email"];
  tokenRefreshBuffer := Int 300;
|}.

(** [APP_CONFIG]; [expo_version] is [Constants.expoConfig?.version]. *)
Definition APP_CONFIG (process_env : gmap string string)
    (expo_version : option string) : AppConfig := {|
  name := "WorkOS Auth Demo";
  version := JS.or_else expo_version "1.0.0";
  environment := env_or process_env "EXPO_PUBLIC_ENVIRONMENT" "development";
  debugMode := bool_decide (process_env !! "EXPO_PUBLIC_DEBUG" = Some "true");
|}.

(** The [filter] predicate: [!value || value.startsWith('your_')]. *)
Definition is_missing (value : string) : bool :=
  negb (JS.nonempty value) || String.prefix "your_" value.

(** [validateEnvironmentConfig]: throws, or returns what it passed to
    [console.warn]. *)
Definition validateEnvironmentConfig (workos : Config) (app : AppConfig)
  : Result (list string) :=
  let requiredVars :=
    [ ("WORKOS_CLIENT_ID", clientId workos);
      ("WORKOS_REDIRECT_URI", redirectUri workos) ] in
  let missing := filter (λ kv, is_missing kv.2 = true) requiredVars in
  if bool_decide (0 < length missing)%nat
     && negb (String.eqb (environment app) "development")
  then
    let missingKeys := String.concat ", " (map fst missing) in
    Throw (JsError
             (("Missing required environment variables: " +:+ missingKeys
               +:+ ". ")
              +:+ "Please configure these in your .env file or environment."))
  else if bool_decide (0 < length missing)%nat && debugMode app
  then
    Ok [ "⚠️  Warning: Using placeholder values for environment variables. "
         +:+ "Please configure proper values for production use." ]
  else Ok [].

End Environment.

(* ===================================================================== *)
(** * [src/navigation/RootNavigator.tsx] and [src/screens/LoginScreen.tsx] *)
(* ===================================================================== *)

Module Screens.

(** What a component renders, as far as the session state decides it. *)
Inductive Rendered : Type :=
| LoadingSpinner (message : string)
| StackNavigator (screens : list string)
| LoginForm.

(** [RootNavigator]: the spinner while loading, otherwise the [Login]
    stack or the authenticated stack. *)
Definition RootNavigator (s : AuthState) : Rendered :=
  if isLoading s then LoadingSpinner "Loading..."
  else if negb (isAuthenticated s) then StackNavigator ["Login"]
  else StackNavigator ["Home"; "Profile"].

(** [LoginScreen]'s body. *)
Definition LoginScreen (s : AuthState) : Rendered :=
  if isLoading s then LoadingSpinner "Authenticating..." else LoginForm.

(** [LoginScreen]'s effect on [error]: the message of the
    ['Authentication Error'] alert it raises, if it raises one. *)
Definition LoginScreen_alert (s : AuthState) : option string :=
  if JS.truthy (error s) then error s else None.

(** [handleLogin]: [clearError(); await login()]; [login] never throws, so
    the [catch] is dead. *)
Definition handleLogin (env : Env) (w : Sys) (p : Provider) : Sys * Provider :=
  AuthContext.login env w (clearError p).

End Screens.

(* ===================================================================== *)
(** * More vocabulary *)
(* ===================================================================== *)

(** The keys the token storage service owns. *)
Definition storage_keys : list string :=
  [ TokenStorage.STORAGE_KEYS.ACCESS_TOKEN;
    TokenStorage.STORAGE_KEYS.REFRESH_TOKEN;
    TokenStorage.STORAGE_KEYS.ID_TOKEN;
    TokenStorage.STORAGE_KEYS.EXPIRES_AT;
    TokenStorage.STORAGE_KEYS.TOKEN_TYPE ].

(** Not one of the three characters the base64url conversion removes. *)
Definition is_url_safe (c : ascii) : bool :=
  negb (Ascii.eqb c "+") && negb (Ascii.eqb c "/") && negb (Ascii.eqb c "=").

(** The form body [exchangeCodeForTokens] posts. *)
Definition exchange_request (env : Env) (code codeVerifier : string)
  : list (string * string) :=
  [ ("grant_type", "authorization_code");
    ("client_id", clientId (config env));
    ("code", code);
    ("code_verifier", codeVerifier);
    ("redirect_uri", redirectUri (config env)) ].

(** The messages [login] can put in the error field. *)
Definition login_messages : list string :=
  [ "Login was cancelled";
    "Network error. Please check your connection and try again";
    "Authentication failed. Please try again";
    "An unexpected error occurred during login" ].

(** The store after running [m] is always related by [R] to the store
    before: with [R := eq], [m] only reads; with [R := same_at k], [m]
    leaves the entry under [k] alone. *)
Definition preserves (R : relation (gmap string string)) {A} (m : M A) : Prop :=
  ∀ w, R (store w) (store (m w).2).

Definition same_at (k : string) : relation (gmap string string) :=
  λ m1 m2, m2 !! k = m1 !! k.

(** The code verifier [loginWithWorkOS] draws when started in [w], and
    the authorization request it then hands to the browser. *)
Definition codeVerifier_at (env : Env) (w : Sys) : string :=
  AuthService.to_base64url
    (JS.btoa (JS.fromCharCode (map (random_byte env (tick w)) (seq 0 32)))).

Definition authRequest_at (env : Env) (w : Sys) : AuthRequest := {|
  req_clientId := clientId (config env);
  req_redirectUri := redirectUri (config env);
  req_scopes := scopes (config env);
  req_usePKCE := false;
  req_codeChallenge :=
    AuthService.to_base64url (digest_sha256_base64 env (codeVerifier_at env w));
  req_codeChallengeMethod := "S256";
|}.

(** The world once the verifier is drawn and the browser has returned. *)
Definition after_prompt (w : Sys) : Sys :=
  {| store := store w; tick := S (S (tick w)) |}.

(** The state [setAuthSuccess] installs. *)
Definition authenticatedState (u : User) (t : AuthTokens) : AuthState := {|
  user := Some u;
  tokens := Some t;
  isLoading := false;
  isAuthenticated := true;
  error := None;
|}.

(** A world whose digest is the base64 of 32 bytes, as SHA-256 gives. *)
Definition hashing : Env := {|
  config := default_config;
  date_now := λ _, 1000000;
  secure_store_rejects := λ _, false;
  random_byte := λ _ _, Byte.x2a;
  digest_sha256_base64 :=
    λ _, JS.btoa (JS.fromCharCode (replicate 32 Byte.xe3));
  prompt_async := λ _ _, Ok (ResultSuccess (Some "code_01"));
  token_endpoint := λ _ _, HttpOk (Ok Scenario.short_lived);
  userinfo_endpoint := λ _ _, HttpOk (Ok Scenario.alice);
|}.

(** The same world with a userinfo endpoint that answers 401. *)
Definition hashing_unauthorized : Env := {|
  config := default_config;
  date_now := λ _, 1000000;
  secure_store_rejects := λ _, false;
  random_byte := λ _ _, Byte.x2a;
  digest_sha256_base64 :=
    λ _, JS.btoa (JS.fromCharCode (replicate 32 Byte.xe3));
  prompt_async := λ _ _, Ok (ResultSuccess (Some "code_01"));
  token_endpoint := λ _ _, HttpOk (Ok Scenario.short_lived);
  userinfo_endpoint := λ _ _, HttpError 401 None;
|}.

(** A secure store that accepts the first [n] interactions and rejects
    every later one, in a world where the token endpoint answers. *)
Definition failing_from (n : nat) : Env := {|
  config := default_config;
  date_now := λ _, 1000000;
  secure_store_rejects := λ k, bool_decide (n ≤ k)%nat;
  random_byte := λ _ _, Byte.x2a;
  digest_sha256_base64 :=
    λ _, JS.btoa (JS.fromCharCode (replicate 32 Byte.xe3));
  prompt_async := λ _ _, Ok (ResultSuccess (Some "code_01"));
  token_endpoint := λ _ _, HttpOk (Ok Scenario.short_lived);
  userinfo_endpoint := λ _ _, HttpOk (Ok Scenario.alice);
|}.

(** A reading of the clock: a time value after the epoch. *)
Definition time_value (now : Z) : Prop := 0 ≤ now ≤ JS.MAX_TIME_VALUE.

(** An error and a spinner never show together. *)
Definition settled_when_failed (s : AuthState) : Prop :=
  error s ≠ None → isLoading s = false.

(* ===================================================================== *)
(** * Facts about the JavaScript primitives *)
(* ===================================================================== *)

(** Unfold the state-and-exception plumbing. *)
Ltac plumbing :=
  unfold try_catch, throw, mbind, mret, M_bind, M_ret, bind, ret.

Section ParseInt.

Import JS.

Lemma parse_digits_string_of_uint d acc :
  parse_digits (NilEmpty.string_of_uint d) (Some acc) = Some (uint_value d acc).
Proof.
  revert acc. induction d; intros acc; simpl; try done; by rewrite IHd.
Qed.

Lemma uint_value_rev d acc :
  uint_value d acc
  = (DecimalPos.Unsigned.of_lu (Decimal.rev d)
     + acc * 10 ^ DecimalPos.Unsigned.usize d)%N.
Proof.
  revert acc.
  induction d; intros acc; simpl uint_value; simpl DecimalPos.Unsigned.usize;
    [ simpl; lia | .. ];
    rewrite IHd, N.pow_succ_r'; unfold Decimal.rev; simpl Decimal.revapp.
  all: rewrite (DecimalPos.Unsigned.of_lu_revapp d (_ Nil)).
  all: simpl DecimalPos.Unsigned.of_lu; unfold Decimal.rev.
  all: ring.
Qed.

Lemma uint_value_of_uint d : uint_value d 0 = Pos.of_uint d.
Proof. rewrite uint_value_rev, DecimalPos.Unsigned.of_uint_alt. lia. Qed.

Lemma parse_digits_nonnil d :
  d ≠ Nil →
  parse_digits (NilEmpty.string_of_uint d) None = Some (Pos.of_uint d).
Proof.
  intros Hd. rewrite <- uint_value_of_uint.
  destruct d; try done; simpl; by rewrite parse_digits_string_of_uint.
Qed.

Lemma skip_white_space_ascii c s :
  (N_of_ascii c < 128)%N → is_white_space c = false →
  skip_white_space (String c s) = String c s.
Proof.
  intros Hc Hw. cbn [skip_white_space]. rewrite Hw.
  destruct s as [|c2 s2]; [done|].
  assert (is_white_space2 c c2 = false) as ->.
  { unfold is_white_space2.
    destruct (N.eqb_spec (N_of_ascii c) 194); [lia|done]. }
  destruct s2 as [|c3 s3]; [done|].
  assert (is_white_space3 c c2 c3 = false) as ->; [|done].
  unfold is_white_space3.
  repeat match goal with
         | |- context [(N_of_ascii c =? ?k)%N] =>
             destruct (N.eqb_spec (N_of_ascii c) k); [lia|]
         end.
  done.
Qed.

(** Reading back a printed number gives the number, below [1e21]: what
    [getTokens] and [isTokenExpired] rely on for the [expires_at] entry. *)
Lemma parseInt_toString z :
  Z.abs z < 1000000000000000000000 → parseInt (toString (Int z)) = Int z.
Proof.
  intros Hz. unfold toString.
  destruct (Z.ltb_spec (Z.abs z) 1000000000000000000000) as [_|]; [|lia].
  unfold parseInt. destruct z as [|p|p]; [done| |].
  all: simpl Z.to_int; unfold NilZero.string_of_int, NilZero.string_of_uint.
  all: pose proof (DecimalPos.Unsigned.to_uint_nonnil p) as Hn.
  all: pose proof (parse_digits_nonnil _ Hn) as Hp.
  all: pose proof (DecimalPos.Unsigned.of_to p) as Hof.
  - destruct (Pos.to_uint p) eqn:E; try done;
      cbn [NilEmpty.string_of_uint] in *;
      rewrite skip_white_space_ascii by reflexivity; cbv beta iota;
      rewrite Hp, Hof; done.
  - rewrite skip_white_space_ascii by reflexivity. cbv beta iota.
    destruct (Pos.to_uint p) eqn:E; try done; rewrite Hp, Hof; done.
Qed.

(** A safe integer is below [1e21]. *)
Lemma isSafeInteger_printable z :
  isSafeInteger z → Z.abs z < 1000000000000000000000.
Proof. unfold isSafeInteger, MAX_SAFE_INTEGER. lia. Qed.

(** [NaN] is printed as a word without digits, which reads back as
    [NaN]. *)
Lemma parseInt_toString_NaN : parseInt (toString NaN) = NaN.
Proof. reflexivity. Qed.

(** A printed number is never the empty string, so it is truthy. *)
Lemma toString_truthy n : truthy (Some (toString n)) = true.
Proof.
  destruct n as [z|]; [|done]. unfold toString.
  destruct (Z.abs z <? _).
  - destruct z as [|p|p]; try done.
    simpl. unfold NilZero.string_of_uint.
    pose proof (DecimalPos.Unsigned.to_uint_nonnil p).
    by destruct (Pos.to_uint p).
  - destruct (z <? 0); cbn [append]; [done|].
    unfold exponent_notation. by destruct (NilEmpty.string_of_uint _).
Qed.

End ParseInt.

Section Base64.

Import JS AuthService.

(** Induction on a list three elements at a time, the way [btoa] reads
    its input. *)
Lemma list_ind3 {A} (P : list A → Prop) :
  P [] → (∀ a, P [a]) → (∀ a b, P [a; b]) →
  (∀ a b c l, P l → P (a :: b :: c :: l)) →
  ∀ l, P l.
Proof.
  intros H0 H1 H2 H3.
  assert (∀ l, P l ∧ (∀ a, P (a :: l)) ∧ (∀ a b, P (a :: b :: l))) as H.
  { induction l as [|x l (IH0 & IH1 & IH2)]; [by auto|].
    split_and!; [done|done|]. intros a b. by apply H3. }
  intros l. apply H.
Qed.

Lemma to_base64url_String c s :
  to_base64url (String c s) =
    if Ascii.eqb (url_char c) "=" then to_base64url s
    else String (url_char c) (to_base64url s).
Proof. reflexivity. Qed.

Lemma to_base64url_pad s : to_base64url (String "=" s) = to_base64url s.
Proof. reflexivity. Qed.

Lemma base64_char_url n :
  (n < 64)%N →
  Ascii.eqb (url_char (base64_char n)) "=" = false
  ∧ is_base64url_char (url_char (base64_char n)) = true.
Proof.
  intros Hn.
  assert (forallb
            (λ i, negb (Ascii.eqb (url_char (base64_char (N.of_nat i))) "=")
                  && is_base64url_char (url_char (base64_char (N.of_nat i))))
            (seq 0 64) = true) as Hall by (vm_compute; reflexivity).
  rewrite forallb_forall in Hall.
  specialize (Hall (N.to_nat n)). rewrite N2Nat.id in Hall.
  assert (In (N.to_nat n) (seq 0 64)) as Hin by (apply in_seq; lia).
  apply Hall, andb_prop in Hin as [H1 H2].
  by apply negb_true_iff in H1.
Qed.

Lemma to_base64url_sextet n s :
  (n < 64)%N →
  to_base64url (String (base64_char n) s)
  = String (url_char (base64_char n)) (to_base64url s)
  ∧ is_base64url_char (url_char (base64_char n)) = true.
Proof.
  intros [H1 H2]%base64_char_url. by rewrite to_base64url_String, H1.
Qed.

Lemma sextet_bounds (a b : N) :
  (a < 256 → b < 256 →
   a / 4 < 64 ∧ a mod 4 * 16 < 64 ∧ a mod 4 * 16 + b / 16 < 64
   ∧ a mod 16 * 4 < 64 ∧ a mod 16 * 4 + b / 64 < 64 ∧ a mod 64 < 64)%N.
Proof.
  intros Ha Hb.
  pose proof (N.mod_upper_bound a 4). pose proof (N.mod_upper_bound a 16).
  pose proof (N.mod_upper_bound a 64).
  assert (a / 4 < 64)%N by (apply N.Div0.div_lt_upper_bound; lia).
  assert (b / 16 < 16)%N by (apply N.Div0.div_lt_upper_bound; lia).
  assert (b / 64 < 4)%N by (apply N.Div0.div_lt_upper_bound; lia).
  lia.
Qed.

Lemma unpadded_length_step n :
  ((4 * S (S (S n)) + 2) / 3 = 4 + (4 * n + 2) / 3)%nat.
Proof.
  replace (4 * S (S (S n)) + 2)%nat with (4 * 3 + (4 * n + 2))%nat by lia.
  by rewrite Nat.div_add_l.
Qed.

(** [btoa] followed by the base64url conversion: [n] input characters
    give [ceil(4n/3)] output characters, all of the URL-safe alphabet. *)
Lemma btoa_codes_base64url (cs : list ascii) :
  let r := to_base64url
             (string_of_list_ascii (btoa_codes (map N_of_ascii cs))) in
  String.length r = ((4 * length cs + 2) / 3)%nat
  ∧ all_chars is_base64url_char r = true.
Proof.
  induction cs as [|a|a b|a b c l [IHlen IHall]] using list_ind3.
  - done.
  - pose proof (N_ascii_bounded a) as Ha.
    destruct (sextet_bounds _ _ Ha Ha) as (H1 & H2 & _).
    cbn [map btoa_codes string_of_list_ascii].
    destruct (to_base64url_sextet _
      (String (base64_char (N_of_ascii a mod 4 * 16)) "==") H1) as [-> E1].
    destruct (to_base64url_sextet _ "==" H2) as [-> E2].
    rewrite !to_base64url_pad. change (to_base64url "") with "".
    cbn [String.length all_chars]. by rewrite E1, E2.
  - pose proof (N_ascii_bounded a) as Ha. pose proof (N_ascii_bounded b) as Hb.
    destruct (sextet_bounds _ _ Ha Hb) as (H1 & _ & H2 & _).
    destruct (sextet_bounds _ _ Hb Hb) as (_ & _ & _ & H3 & _).
    cbn [map btoa_codes string_of_list_ascii].
    destruct (to_base64url_sextet _
      (String (base64_char (N_of_ascii a mod 4 * 16 + N_of_ascii b / 16))
         (String (base64_char (N_of_ascii b mod 16 * 4)) "=")) H1) as [-> E1].
    destruct (to_base64url_sextet _
      (String (base64_char (N_of_ascii b mod 16 * 4)) "=") H2) as [-> E2].
    destruct (to_base64url_sextet _ "=" H3) as [-> E3].
    rewrite !to_base64url_pad. change (to_base64url "") with "".
    cbn [String.length all_chars]. by rewrite E1, E2, E3.
  - pose proof (N_ascii_bounded a) as Ha. pose proof (N_ascii_bounded b) as Hb.
    pose proof (N_ascii_bounded c) as Hc.
    destruct (sextet_bounds _ _ Ha Hb) as (H1 & _ & H2 & _).
    destruct (sextet_bounds _ _ Hb Hc) as (_ & _ & _ & _ & H3 & _).
    destruct (sextet_bounds _ _ Hc Hc) as (_ & _ & _ & _ & _ & H4).
    cbn [map btoa_codes string_of_list_ascii app].
    set (rest := string_of_list_ascii (btoa_codes (map N_of_ascii l))) in *.
    destruct (to_base64url_sextet _
      (String (base64_char (N_of_ascii a mod 4 * 16 + N_of_ascii b / 16))
         (String (base64_char (N_of_ascii b mod 16 * 4 + N_of_ascii c / 64))
            (String (base64_char (N_of_ascii c mod 64)) rest))) H1) as [-> E1].
    destruct (to_base64url_sextet _
      (String (base64_char (N_of_ascii b mod 16 * 4 + N_of_ascii c / 64))
         (String (base64_char (N_of_ascii c mod 64)) rest)) H2) as [-> E2].
    destruct (to_base64url_sextet _
      (String (base64_char (N_of_ascii c mod 64)) rest) H3) as [-> E3].
    destruct (to_base64url_sextet _ rest H4) as [-> E4].
    cbn [String.length all_chars length]. cbv zeta in IHlen, IHall.
    rewrite E1, E2, E3, E4, IHall, IHlen, unpadded_length_step. done.
Qed.

Lemma list_ascii_of_fromCharCode bytes :
  list_ascii_of_string (fromCharCode bytes) = map ascii_of_byte bytes.
Proof. apply list_ascii_of_string_of_list_ascii. Qed.

Lemma btoa_codes_length (bs : list N) :
  length (btoa_codes bs) = (4 * ((length bs + 2) / 3))%nat.
Proof.
  induction bs as [|a|a b|a b c l IH] using list_ind3; try done.
  cbn [btoa_codes length app]. rewrite IH.
  replace (S (S (S (length l))) + 2)%nat with (1 * 3 + (length l + 2))%nat
    by lia.
  rewrite Nat.div_add_l by done. lia.
Qed.

Lemma length_string_of_list_ascii l :
  String.length (string_of_list_ascii l) = length l.
Proof. induction l as [|c l IH]; [done|]. cbn. by rewrite IH. Qed.

(** *** C10
    Every string [generateCodeVerifier] returns is exactly 43 characters
    long and made of base64url characters only ([A-Z], [a-z], [0-9], [-],
    [_]): the 32 random bytes base64-encode to 44 characters, and the
    conversion strips the one padding character.  The call always
    returns, whatever the random bytes are. *)
Theorem generateCodeVerifier_43_base64url env w :
  ∃ randomBytes verifier,
    length randomBytes = 32%nat
    ∧ generateCodeVerifier env w = (Ok verifier, next w)
    ∧ verifier = to_base64url (btoa (fromCharCode randomBytes))
    ∧ String.length (btoa (fromCharCode randomBytes)) = 44%nat
    ∧ String.length verifier = 43%nat
    ∧ all_chars is_base64url_char verifier = true.
Proof.
  exists (map (random_byte env (tick w)) (seq 0 32)), 
    (to_base64url
       (btoa (fromCharCode (map (random_byte env (tick w)) (seq 0 32))))).
  split; [by rewrite length_map, length_seq|].
  split; [done|]. split; [done|].
  unfold btoa. rewrite list_ascii_of_fromCharCode.
  rewrite length_string_of_list_ascii, btoa_codes_length.
  pose proof (btoa_codes_base64url
    (map ascii_of_byte (map (random_byte env (tick w)) (seq 0 32))))
    as [Hlen Hall].
  cbv zeta in Hlen, Hall. rewrite !length_map, length_seq in Hlen.
  rewrite !length_map, length_seq. done.
Qed.

End Base64.

(* ===================================================================== *)
(** * The token storage service *)
(* ===================================================================== *)

Section TokenStorageFacts.

Import TokenStorage TokenStorage.STORAGE_KEYS.

Context (env : Env).

(** Unfold the monadic plumbing of the storage service. *)
Ltac run :=
  unfold storeTokens, getTokens, isTokenExpired, clearTokens,
    setItemAsync, getItemAsync, deleteItemAsync, Date_now, try_catch,
    throw, mbind, mret, M_bind, M_ret, bind, ret, next;
  cbn [promise_all fst snd store tick].

Ltac keys :=
  unfold ACCESS_TOKEN, EXPIRES_AT, TOKEN_TYPE, REFRESH_TOKEN, ID_TOKEN in *.

(** What a successful [storeTokens] leaves in the store: the three
    mandatory entries, and each optional entry only if the token set has
    a truthy value for it. *)
Lemma storeTokens_Ok t w w' :
  storeTokens env t w = (Ok (), w') →
  store w' !! ACCESS_TOKEN = Some (accessToken t)
  ∧ store w' !! EXPIRES_AT = Some (expiresAt_of (date_now env (tick w)) t)
  ∧ store w' !! TOKEN_TYPE = Some (tokenType t)
  ∧ store w' !! REFRESH_TOKEN =
      (if JS.truthy (refreshToken t) then refreshToken t
       else store w !! REFRESH_TOKEN)
  ∧ store w' !! ID_TOKEN =
      (if JS.truthy (idToken t) then idToken t else store w !! ID_TOKEN)
  ∧ (tick w < tick w')%nat.
Proof.
  run. intros H. unfold expiresAt_of, JS.nonempty in *.
  repeat (case_match; simplify_eq/=); try done.
  all: keys; simplify_map_eq; split_and!; try done; lia.
Qed.

Lemma storeTokens_accepted t w :
  accepting_from env (tick w) →
  ∃ w', storeTokens env t w = (Ok (), w').
Proof.
  intros Hok. run.
  rewrite !Hok by (cbn; lia).
  destruct (refreshToken t) as [rt|]; [destruct (JS.nonempty rt)|];
  (destruct (idToken t) as [it|]; [destruct (JS.nonempty it)|]);
  cbn; rewrite ?Hok by (cbn; lia); eauto.
Qed.

(** [getTokens] against a store that answers: the five reads, then the
    clock. *)
Lemma getTokens_read w :
  accepting_from env (tick w) →
  getTokens env w =
    (Ok (if negb (JS.truthy (store w !! ACCESS_TOKEN))
            || negb (JS.truthy (store w !! EXPIRES_AT))
            || negb (JS.truthy (store w !! TOKEN_TYPE))
         then None
         else Some {|
           accessToken := default "" (store w !! ACCESS_TOKEN);
           refreshToken := JS.or_undefined (store w !! REFRESH_TOKEN);
           idToken := JS.or_undefined (store w !! ID_TOKEN);
           expiresIn :=
             JS.max (Int 0)
               (JS.floor_div
                  (JS.sub (JS.parseInt (default "" (store w !! EXPIRES_AT)))
                          (Int (date_now env (5 + tick w))))
                  (Int 1000));
           tokenType := default "" (store w !! TOKEN_TYPE) |}),
     {| store := store w;
        tick := if negb (JS.truthy (store w !! ACCESS_TOKEN))
                   || negb (JS.truthy (store w !! EXPIRES_AT))
                   || negb (JS.truthy (store w !! TOKEN_TYPE))
                then 5 + tick w else 6 + tick w |}).
Proof.
  intros Hok. run. rewrite !Hok by (cbn; lia). cbn.
  unfold slot. cbn.
  by destruct (_ || _).
Qed.

(** What a non-null result of [getTokens] says about the store. *)
Lemma getTokens_Some t w w1 :
  getTokens env w = (Ok (Some t), w1) →
  store w1 = store w
  ∧ store w !! ACCESS_TOKEN = Some (accessToken t)
  ∧ store w !! TOKEN_TYPE = Some (tokenType t)
  ∧ JS.nonempty (accessToken t) = true
  ∧ refreshToken t = JS.or_undefined (store w !! REFRESH_TOKEN)
  ∧ idToken t = JS.or_undefined (store w !! ID_TOKEN).
Proof.
  run.
  repeat (destruct (secure_store_rejects env _); cbn [tick store]); try done.
  cbn -[JS.parseInt].
  destruct (store w !! ACCESS_TOKEN) as [[|c a]|]; cbn -[JS.parseInt]; try done.
  destruct (store w !! EXPIRES_AT) as [[|c' x]|]; cbn -[JS.parseInt]; try done.
  destruct (store w !! TOKEN_TYPE) as [[|c'' y]|]; cbn -[JS.parseInt]; try done.
  by intros [= <- <-].
Qed.

(** The value [isTokenExpired] computes. *)
Lemma isTokenExpired_eval b w :
  (isTokenExpired env b w).1 =
    Ok (if secure_store_rejects env (tick w) then true
        else if JS.truthy (store w !! EXPIRES_AT) then
          JS.le (JS.sub (JS.parseInt (default "" (store w !! EXPIRES_AT)))
                        (Int (date_now env (S (tick w)))))
                (JS.mul b (Int 1000))
        else true).
Proof.
  run. destruct (secure_store_rejects env (tick w)); [done|].
  by destruct (JS.truthy _).
Qed.

(** [isTokenExpired] never throws and leaves the store alone. *)
Lemma isTokenExpired_total b w :
  ∃ r w', isTokenExpired env b w = (Ok r, w')
          ∧ store w' = store w ∧ (tick w ≤ tick w')%nat.
Proof.
  run. destruct (secure_store_rejects env (tick w)).
  - eexists _, _. split; [done|]. cbn. split; [done|lia].
  - destruct (JS.truthy _); eexists _, _; (split; [done|]); cbn;
      (split; [done|lia]).
Qed.

Lemma clearTokens_accepted w :
  accepting_from env (tick w) →
  ∃ w', clearTokens env w = (Ok (), w') ∧ cleared (store w').
Proof.
  intros Hok. run. rewrite !Hok by (cbn; lia). cbn.
  eexists; split; [done|]. unfold cleared. keys.
  cbn. by simplify_map_eq.
Qed.

(** [clearTokens] resolves or rejects with its own error; time only
    moves forward. *)
Lemma clearTokens_cases w :
  ∃ w', (clearTokens env w = (Ok (), w')
         ∨ clearTokens env w
           = (Throw (JsError "Failed to clear authentication tokens"), w'))
        ∧ (tick w ≤ tick w')%nat.
Proof.
  run.
  repeat (destruct (secure_store_rejects env _); cbn [tick store]);
    eexists; (split; [by eauto|cbn; lia]).
Qed.

End TokenStorageFacts.

Section CredentialStore.

Import TokenStorage TokenStorage.STORAGE_KEYS.

Lemma remaining_seconds e d :
  0 ≤ e → 0 ≤ d ≤ 1000 →
  e - 1 ≤ 0 `max` ((e * 1000 - d) `div` 1000) ≤ e.
Proof.
  intros He Hd.
  assert (e - 1 ≤ (e * 1000 - d) `div` 1000)
    by (apply Z.div_le_lower_bound; lia).
  assert ((e * 1000 - d) `div` 1000 ≤ e)
    by (apply Z.div_le_upper_bound; lia).
  lia.
Qed.

(** *** C3 (as amended)
    For every token set [t] with a non-empty [accessToken] and
    [tokenType] and a non-negative [expiresIn] small enough for the expiry
    instant [stored_at + expiresIn * 1000] to be a safe integer, whatever
    the store held before: when the secure store accepts the calls and
    the clock [getTokens()] reads is at most a second past the one
    [storeTokens(t)] read, [getTokens()] right after [storeTokens(t)]
    returns [t]'s [accessToken] and [tokenType] unchanged and an
    [expiresIn] within one second of [t]'s.  [refreshToken] and [idToken]
    come back unchanged when [t] carries a non-empty one; when [t] has
    none, [getTokens()] returns whatever the store already held under
    that key. *)
Theorem getTokens_after_storeTokens env w t e :
  accepting_from env (tick w) →
  JS.nonempty (accessToken t) = true →
  JS.nonempty (tokenType t) = true →
  expiresIn t = Int e →
  let stored_at := date_now env (tick w) in
  let read_at := date_now env (5 + tick (storeTokens env t w).2) in
  time_value stored_at → time_value read_at →
  0 ≤ read_at - stored_at ≤ 1000 →
  0 ≤ e → stored_at + e * 1000 ≤ JS.MAX_SAFE_INTEGER →
  ∃ w1 w2 t' e',
    storeTokens env t w = (Ok (), w1)
    ∧ getTokens env w1 = (Ok (Some t'), w2)
    ∧ accessToken t' = accessToken t
    ∧ tokenType t' = tokenType t
    ∧ refreshToken t' =
        (if JS.truthy (refreshToken t) then refreshToken t
         else JS.or_undefined (store w !! REFRESH_TOKEN))
    ∧ idToken t' =
        (if JS.truthy (idToken t) then idToken t
         else JS.or_undefined (store w !! ID_TOKEN))
    ∧ expiresIn t' = Int e'
    ∧ e - 1 ≤ e' ≤ e.
Proof.
  intros Hok Hat Htt He stored_at read_at Hsa Hra Hclock Hpos Hsafe.
  subst stored_at read_at. unfold time_value, JS.MAX_TIME_VALUE in *.
  unfold JS.MAX_SAFE_INTEGER in Hsafe.
  destruct (storeTokens_accepted env t w Hok) as [w1 Hstore].
  rewrite Hstore in Hra, Hclock. cbn [snd] in Hra, Hclock.
  destruct (storeTokens_Ok env t w w1 Hstore)
    as (Ha & Hx & Hty & Hr & Hi & Htick).
  assert (accepting_from env (tick w1)) as Hok1.
  { intros k Hk. apply Hok. lia. }
  pose proof (getTokens_read env w1 Hok1) as Hget.
  rewrite Ha, Hx, Hty, Hr, Hi in Hget.
  unfold JS.nonempty in Hat, Htt. unfold expiresAt_of in Hget.
  rewrite Hat, Htt, toString_truthy in Hget.
  cbn [negb orb default from_option] in Hget. unfold Datatypes.id in Hget.
  rewrite He in Hget. cbn [JS.add JS.mul] in Hget.
  rewrite parseInt_toString in Hget by lia.
  cbn [JS.sub JS.floor_div JS.max] in Hget.
  change (0 <? 1000) with true in Hget. cbn iota in Hget.
  eexists w1, _, _, _. split; [done|]. split; [exact Hget|].
  cbn [accessToken tokenType refreshToken idToken expiresIn].
  split_and!; try done.
  - by destruct (JS.truthy (refreshToken t)) eqn:E;
      [unfold JS.or_undefined; rewrite E|].
  - by destruct (JS.truthy (idToken t)) eqn:E;
      [unfold JS.or_undefined; rewrite E|].
  - replace (date_now env (tick w) + e * 1000 - date_now env (5 + tick w1)%nat)
      with (e * 1000 - (date_now env (5 + tick w1)%nat - date_now env (tick w)))
      by lia.
    apply remaining_seconds; lia.
  - replace (date_now env (tick w) + e * 1000 - date_now env (5 + tick w1)%nat)
      with (e * 1000 - (date_now env (5 + tick w1)%nat - date_now env (tick w)))
      by lia.
    apply remaining_seconds; lia.
Qed.

(** The spec's own storage scenario, [{accessToken: "a1", expiresIn: 3600,
    tokenType: "Bearer"}] written to an empty store, under a clock that
    moves: [storeTokens] reads it at 1000000 and [getTokens], nine
    interactions later, at 1000900. *)
Lemma getTokens_after_storeTokens_a1 :
  ∃ w1 w2 t' e',
    storeTokens (Scenario.ticking Scenario.cancelling) Scenario.a1
      Scenario.empty = (Ok (), w1)
    ∧ getTokens (Scenario.ticking Scenario.cancelling) w1 = (Ok (Some t'), w2)
    ∧ accessToken t' = "a1"
    ∧ tokenType t' = "Bearer"
    ∧ refreshToken t' = None
    ∧ idToken t' = None
    ∧ expiresIn t' = Int e'
    ∧ 3600 - 1 ≤ e' ≤ 3600.
Proof.
  apply (getTokens_after_storeTokens
           (Scenario.ticking Scenario.cancelling) Scenario.empty
           Scenario.a1 3600).
  - intros k _. reflexivity.
  - reflexivity.
  - reflexivity.
  - reflexivity.
  - change (0 ≤ 1000000 ≤ 8640000000000000). lia.
  - change (0 ≤ 1000900 ≤ 8640000000000000). lia.
  - change (0 ≤ 1000900 - 1000000 ≤ 1000). lia.
  - lia.
  - change (1000000 + 3600 * 1000 ≤ 9007199254740991). lia.
Defined.

(** The claim as first stated fails: [a1] has no refresh token, the store
    held one, and [getTokens()] after [storeTokens(a1)] returns the old
    one instead of [undefined]. *)
Lemma getTokens_after_storeTokens_stale_refreshToken :
  refreshToken Scenario.a1 = None
  ∧ (getTokens Scenario.cancelling
       (storeTokens Scenario.cancelling Scenario.a1 Scenario.stale).2).1
    = Ok (Some {| accessToken := "a1";
                  refreshToken := Some "r0";
                  idToken := None;
                  expiresIn := Int 3600;
                  tokenType := "Bearer" |}).
Proof. split; [reflexivity|]. vm_compute. reflexivity. Qed.

(** What [isTokenExpired] answers, case by case: [true] when the secure
    store rejects the read of the [expires_at] entry and when the entry
    is absent or empty; otherwise the JavaScript comparison
    [expiresAt - now <= bufferSeconds * 1000], [expiresAt] being
    [parseInt] of the entry and [now] the clock at that moment, which is
    the comparison of the integers when [parseInt] gives one. It never
    throws. *)
Lemma isTokenExpired_by_cases env w (bufferSeconds : Z) :
  let now := date_now env (S (tick w)) in
  let result := (isTokenExpired env (Int bufferSeconds) w).1 in
  (secure_store_rejects env (tick w) = true → result = Ok true)
  ∧ (secure_store_rejects env (tick w) = false →
     JS.truthy (store w !! EXPIRES_AT) = false →
     result = Ok true)
  ∧ (∀ s, secure_store_rejects env (tick w) = false →
          store w !! EXPIRES_AT = Some s →
          JS.truthy (Some s) = true →
          result = Ok (JS.le (JS.sub (JS.parseInt s) (Int now))
                             (Int (bufferSeconds * 1000)))
          ∧ ∀ expiresAt, JS.parseInt s = Int expiresAt →
              (result = Ok true ↔ expiresAt - now ≤ bufferSeconds * 1000)).
Proof.
  unfold isTokenExpired, getItemAsync, Date_now, try_catch,
    mbind, mret, M_bind, M_ret, bind, ret, next.
  cbn [fst snd tick store]. split_and!.
  - by intros ->.
  - by intros -> ->.
  - intros s -> Hs Ht. rewrite Hs, Ht. cbn [fst default from_option].
    unfold Datatypes.id. split; [done|].
    intros expiresAt ->. cbn [JS.sub JS.le JS.mul].
    split.
    + intros [= H]. by apply Z.leb_le.
    + intros H. f_equal. by apply Z.leb_le.
Qed.

(** The cases at work: a store that rejects the read, an empty store,
    and the spec's scenario of a token stored for 3600 s under a 300 s
    buffer, first fresh and then 3500 s later. *)
Lemma isTokenExpired_by_cases_at_work :
  (isTokenExpired (Scenario.broken_store Scenario.cancelling) (Int 300)
     (Scenario.holding "4600000" None)).1 = Ok true
  ∧ (isTokenExpired Scenario.cancelling (Int 300) Scenario.empty).1 = Ok true
  ∧ (isTokenExpired Scenario.cancelling (Int 300)
       (Scenario.holding "4600000" None)).1 = Ok false
  ∧ (isTokenExpired Scenario.cancelling (Int 300)
       (Scenario.holding "1100000" None)).1 = Ok true.
Proof.
  split_and!.
  - destruct (isTokenExpired_by_cases
                (Scenario.broken_store Scenario.cancelling)
                (Scenario.holding "4600000" None) 300) as (H & _ & _).
    apply H. reflexivity.
  - destruct (isTokenExpired_by_cases Scenario.cancelling
                Scenario.empty 300) as (_ & H & _).
    apply H; reflexivity.
  - destruct (isTokenExpired_by_cases Scenario.cancelling
                (Scenario.holding "4600000" None) 300) as (_ & _ & H).
    destruct (H "4600000") as [-> _]; reflexivity.
  - destruct (isTokenExpired_by_cases Scenario.cancelling
                (Scenario.holding "1100000" None) 300) as (_ & _ & H).
    destruct (H "1100000") as [_ H']; [reflexivity..|].
    apply (H' 1100000); [reflexivity|]. simpl. lia.
Defined.

(** *** C9
    [isTokenExpired] does not fail closed on an [expires_at] entry it
    cannot read as a number. When the secure store hands back a
    non-empty entry in which [parseInt] finds no number (["NaN"], which
    [storeTokens] writes for a token response without [expires_in], or
    any other text), [isTokenExpired] returns [false] for every
    [bufferSeconds] and every reading of the clock: the token is treated
    as valid. The [catch] branch, which answers [true] "for safety", is
    not reached, since [parseInt] does not throw. *)
Theorem isTokenExpired_unparsable_entry env w s b :
  secure_store_rejects env (tick w) = false →
  store w !! EXPIRES_AT = Some s →
  JS.nonempty s = true →
  JS.parseInt s = NaN →
  isTokenExpired env b w
  = (Ok false, {| store := store w; tick := S (S (tick w)) |}).
Proof.
  intros Hread Hs Hne Hnan.
  unfold isTokenExpired, getItemAsync, Date_now, try_catch,
    mbind, mret, M_bind, M_ret, bind, ret, next.
  cbn [fst snd tick store]. unfold JS.nonempty in Hne.
  rewrite Hread, Hs, Hne. cbn [default from_option]. unfold Datatypes.id.
  by rewrite Hnan.
Qed.

(** The entry ["NaN"] under the default buffer of 300 s. *)
Lemma isTokenExpired_unparsable_entry_NaN :
  isTokenExpired Scenario.cancelling (Int 300) (Scenario.holding "NaN" None)
  = (Ok false,
     {| store := store (Scenario.holding "NaN" None); tick := 2 |}).
Proof.
  apply (isTokenExpired_unparsable_entry Scenario.cancelling
           (Scenario.holding "NaN" None) "NaN" (Int 300)).
  - reflexivity.
  - reflexivity.
  - reflexivity.
  - reflexivity.
Defined.

End CredentialStore.

(* ===================================================================== *)
(** * The authentication service *)
(* ===================================================================== *)

Section TokenExchange.

Import TokenStorage TokenStorage.STORAGE_KEYS AuthService.

(** *** C5
    Whenever [refreshAccessToken(refreshToken)] succeeds, the server
    answered with a token response; if that response has no
    [refresh_token] the returned token set carries the caller's
    [refreshToken]; and the returned token set is the one [storeTokens]
    was run on, successfully, before the call returned: the store holds
    its access token, expiry and token type, and its refresh and id tokens
    when it has them. *)
Theorem refreshAccessToken_carries_and_persists env rt w tokens w' :
  refreshAccessToken env rt w = (Ok tokens, w') →
  ∃ tokenData,
    token_endpoint env (tick w) (refresh_request env rt)
    = HttpOk (Ok tokenData)
    ∧ accessToken tokens = access_token tokenData
    ∧ (refresh_token tokenData = None → refreshToken tokens = Some rt)
    ∧ storeTokens env tokens (next w) = (Ok (), w')
    ∧ store w' !! ACCESS_TOKEN = Some (accessToken tokens)
    ∧ store w' !! EXPIRES_AT
      = Some (expiresAt_of (date_now env (S (tick w))) tokens)
    ∧ store w' !! TOKEN_TYPE = Some (tokenType tokens)
    ∧ (JS.truthy (refreshToken tokens) = true →
       store w' !! REFRESH_TOKEN = refreshToken tokens)
    ∧ (JS.truthy (idToken tokens) = true →
       store w' !! ID_TOKEN = idToken tokens).
Proof.
  unfold refreshAccessToken, fetch_token. plumbing.
  fold (refresh_request env rt).
  destruct (token_endpoint env (tick w) (refresh_request env rt))
    as [e|status descr|[tokenData|e]]; try done.
  set (t := {| accessToken := access_token tokenData |}).
  destruct (storeTokens env t (next w)) as [[[]|e] w1] eqn:Hstore; [|done].
  intros [= <- <-]. exists tokenData.
  destruct (storeTokens_Ok env t (next w) w1 Hstore)
    as (Ha & Hx & Hty & Hr & Hi & _).
  split_and!; try done.
  - intros H. subst t. cbn. by rewrite H.
  - intros Ht. by rewrite Hr, Ht.
  - intros Ht. by rewrite Hi, Ht.
Qed.

(** A refresh with ["r1"], answered without a new refresh token: the
    returned token set carries ["r1"], and the store holds the new access
    token, its expiry and ["r1"]. *)
Lemma refreshAccessToken_carries_r1 :
  let result :=
    refreshAccessToken Scenario.refreshing "r1"
      (Scenario.holding "0" (Some "r1")) in
  result.1 = Ok {| accessToken := "a2"; refreshToken := Some "r1";
                   idToken := None; expiresIn := Int 60;
                   tokenType := "Bearer" |}
  ∧ store result.2 !! ACCESS_TOKEN = Some "a2"
  ∧ store result.2 !! EXPIRES_AT = Some "1060000"
  ∧ store result.2 !! TOKEN_TYPE = Some "Bearer"
  ∧ store result.2 !! REFRESH_TOKEN = Some "r1".
Proof.
  cbv zeta.
  pose (tokens := {| accessToken := "a2"; refreshToken := Some "r1";
                     idToken := None; expiresIn := Int 60;
                     tokenType := "Bearer" |}).
  destruct (refreshAccessToken_carries_and_persists Scenario.refreshing "r1"
              (Scenario.holding "0" (Some "r1")) tokens
              (refreshAccessToken Scenario.refreshing "r1"
                 (Scenario.holding "0" (Some "r1"))).2)
    as (tokenData & Hfetch & _ & Hcarry & _ & Ha & Hx & Hty & Hr & _).
  - vm_compute. reflexivity.
  - injection Hfetch as <-. specialize (Hcarry eq_refl).
    split_and!; [vm_compute; reflexivity|exact Ha|exact Hx|exact Hty|].
    apply Hr. reflexivity.
Defined.




End TokenExchange.

(* ===================================================================== *)
(** * The session controller *)
(* ===================================================================== *)

Section SessionController.

Import TokenStorage TokenStorage.STORAGE_KEYS.

(** ** [login] *)

(** A browser hand-off that ends in [cancel] or [dismiss] makes
    [loginWithWorkOS] throw [USER_CANCELLED]. *)
Lemma loginWithWorkOS_cancelled env w :
  (∀ request, prompt_async env (S (tick w)) request = Ok ResultCancel
              ∨ prompt_async env (S (tick w)) request = Ok ResultDismiss) →
  (AuthService.loginWithWorkOS env w).1
  = Throw (AuthError USER_CANCELLED
             "User cancelled the authentication process" None).
Proof.
  intros Hprompt.
  unfold AuthService.loginWithWorkOS, AuthService.generateCodeVerifier,
    AuthService.getRandomBytes, AuthService.generateCodeChallenge,
    AuthService.promptAsync, next. plumbing. cbn [tick].
  by destruct (Hprompt
    {| req_clientId := clientId (config env);
       req_redirectUri := redirectUri (config env);
       req_scopes := scopes (config env);
       req_usePKCE := false;
       req_codeChallenge :=
         AuthService.to_base64url
           (digest_sha256_base64 env
              (AuthService.to_base64url
                 (JS.btoa
                    (JS.fromCharCode
                       (map (random_byte env (tick w)) (seq 0 32))))));
       req_codeChallengeMethod := "S256" |}) as [-> | ->].
Qed.

(** Whatever [loginWithWorkOS] throws, [login] keeps the user, the tokens
    and [isAuthenticated] it found, and sets the selected message. *)
Lemma login_failure env w p e w' :
  AuthService.loginWithWorkOS env w = (Throw e, w') →
  authState (AuthContext.login env w p).2
  = {| user := user (authState p);
       tokens := tokens (authState p);
       isLoading := false;
       isAuthenticated := isAuthenticated (authState p);
       error := Some (loginErrorMessage e) |}.
Proof. unfold AuthContext.login. by intros ->. Qed.

(** So every cancelled login ends with the error field set. *)
Lemma login_cancelled env w p :
  (∀ request, prompt_async env (S (tick w)) request = Ok ResultCancel
              ∨ prompt_async env (S (tick w)) request = Ok ResultDismiss) →
  error (authState (AuthContext.login env w p).2)
  = Some "Login was cancelled".
Proof.
  intros Hprompt. pose proof (loginWithWorkOS_cancelled env w Hprompt) as H.
  destruct (AuthService.loginWithWorkOS env w) as [r w'] eqn:Hlogin.
  cbn in H. subst r. by rewrite (login_failure env w p _ w' Hlogin).
Qed.

(** *** C1 (the code at the failing input)
    The user dismisses the browser during [login()], started from the
    idle state: user and tokens stay null and [isLoading] returns to
    false, but the error field is set to ["Login was cancelled"]. *)
Theorem login_cancelled_surfaces_error :
  authState
    (AuthContext.login Scenario.cancelling Scenario.empty Scenario.idle).2
  = {| user := None;
       tokens := None;
       isLoading := false;
       isAuthenticated := false;
       error := Some "Login was cancelled" |}.
Proof. vm_compute. reflexivity. Qed.

(** ** [logout] *)

(** *** C7
    [logout()] always ends in the idle state, with [user = null],
    [tokens = null], not loading, not authenticated and no error: the
    state does not depend on whether [clearTokens()] resolved or threw. *)
Theorem logout_always_logged_out env w p :
  authState (AuthContext.logout env w p).2 = loggedOutState
  ∧ Idle (authState (AuthContext.logout env w p).2).
Proof.
  unfold AuthContext.logout.
  destruct (AuthService.logout env w) as [[[]|e] w']; done.
Qed.

(** Both outcomes of [clearTokens()] occur. *)
Lemma logout_clearTokens_resolves :
  (clearTokens Scenario.cancelling (Scenario.holding "4600000" None)).1
  = Ok ()
  ∧ authState
      (AuthContext.logout Scenario.cancelling
         (Scenario.holding "4600000" None) Scenario.idle).2
    = loggedOutState.
Proof. split; vm_compute; reflexivity. Qed.

Lemma logout_clearTokens_throws :
  (clearTokens (Scenario.broken_store Scenario.cancelling)
     (Scenario.holding "4600000" None)).1
  = Throw (JsError "Failed to clear authentication tokens")
  ∧ authState
      (AuthContext.logout (Scenario.broken_store Scenario.cancelling)
         (Scenario.holding "4600000" None) Scenario.idle).2
    = loggedOutState.
Proof. split; vm_compute; reflexivity. Qed.

(** ** Where the error field comes from *)

(** *** C2 (as amended)
    A non-null error is only ever left by [login()] and [refreshToken()]
    ([logout()], the session restore and [clearError()] end with
    [error = null]).  When [refreshToken()] leaves one, user and tokens
    are null and the state is not authenticated, because [logout()] ran
    first.  When [login()] leaves one, user, tokens and [isAuthenticated]
    are what they were before the call: null if [login()] started
    unauthenticated, kept if it started authenticated. *)
Theorem error_leaves_user_and_tokens env w p :
  let after_login := authState (AuthContext.login env w p).2 in
  let after_refresh := authState (AuthContext.refreshToken env w p).2 in
  (error after_login ≠ None →
     user after_login = user (authState p)
     ∧ tokens after_login = tokens (authState p)
     ∧ isAuthenticated after_login = isAuthenticated (authState p)
     ∧ isLoading after_login = false)
  ∧ (error after_refresh ≠ None →
     user after_refresh = None
     ∧ tokens after_refresh = None
     ∧ isAuthenticated after_refresh = false
     ∧ isLoading after_refresh = false
     ∧ error after_refresh
       = Some "Your session has expired. Please log in again")
  ∧ error (authState (AuthContext.logout env w p).2) = None
  ∧ error (authState (AuthContext.attemptSessionRestore env w p).2) = None
  ∧ error (authState (clearError p)) = None.
Proof.
  cbv zeta. split_and!.
  - unfold AuthContext.login.
    destruct (AuthService.loginWithWorkOS env w) as [[[t u]|e] w']; done.
  - unfold AuthContext.refreshToken.
    match goal with
    | |- context [match ?m w with _ => _ end] =>
        destruct (m w) as [[t|e] w']
    end; [done|].
    unfold AuthContext.logout.
    by destruct (AuthService.logout env w') as [[[]|e'] w''].
  - unfold AuthContext.logout.
    by destruct (AuthService.logout env w) as [[[]|e'] w''].
  - unfold AuthContext.attemptSessionRestore.
    by destruct (AuthService.restoreSession env w) as [[[[t u]|]|e] w'].
  - done.
Qed.

(** From the idle state: a login that cannot reach the token endpoint,
    and a refresh with nothing stored, both end with an error and with
    user and tokens null. *)
Lemma error_leaves_user_and_tokens_idle :
  let after_login :=
    authState (AuthContext.login Scenario.unreachable_server
                 Scenario.empty Scenario.idle).2 in
  let after_refresh :=
    authState (AuthContext.refreshToken Scenario.cancelling
                 Scenario.empty Scenario.idle).2 in
  (user after_login = None ∧ tokens after_login = None
   ∧ isAuthenticated after_login = false ∧ isLoading after_login = false)
  ∧ (user after_refresh = None ∧ tokens after_refresh = None
     ∧ isAuthenticated after_refresh = false
     ∧ isLoading after_refresh = false
     ∧ error after_refresh
       = Some "Your session has expired. Please log in again").
Proof.
  cbv zeta. split.
  - apply (error_leaves_user_and_tokens
             Scenario.unreachable_server Scenario.empty Scenario.idle).
    vm_compute. discriminate.
  - apply (error_leaves_user_and_tokens
             Scenario.cancelling Scenario.empty Scenario.idle).
    vm_compute. discriminate.
Defined.

(** The claim as first stated fails.  The app starts with a valid stored
    session and restores it; [login()] is then called and the token
    endpoint cannot be reached: the state is reachable, carries an error,
    and still has the user and the tokens. *)
Lemma error_with_user_and_tokens :
  let restored :=
    perform Scenario.unreachable_server OpSessionRestore
      (Scenario.holding "4600000" None) mount in
  let failed :=
    (perform Scenario.unreachable_server OpLogin restored.1 restored.2).2 in
  reachable failed
  ∧ error (authState failed)
    = Some "Network error. Please check your connection and try again"
  ∧ user (authState failed)
    = Some {| id := "user_01"; email := "alice@example.com";
              firstName := Some "Alice"; lastName := None;
              profilePictureUrl := None; organizationId := None |}
  ∧ tokens (authState failed) = Some Scenario.a1
  ∧ isAuthenticated (authState failed) = true.
Proof.
  cbv zeta. split.
  - do 2 apply reachable_perform. apply reachable_mount.
  - vm_compute. done.
Qed.

(** ** Session restore *)


End SessionController.



(* ===================================================================== *)
(** * The [isAuthenticated] invariant *)
(* ===================================================================== *)

Section Invariant.

Lemma coherent_authenticated_iff s :
  coherent s → authenticated_iff_user_and_tokens s.
Proof.
  unfold coherent, authenticated_iff_user_and_tokens.
  intros [-> Himp].
  destruct (user s); [|done].
  destruct (tokens s); [done|]. by destruct Himp.
Qed.

(** One [setAuthState] call: the new state is judged on its own, the
    earlier ones are kept. *)
Lemma setAuthState_coherent f p :
  (∀ s, coherent s → coherent (f s)) →
  Forall coherent (states p) → Forall coherent (states (setAuthState f p)).
Proof.
  intros Hf Hp. unfold states, setAuthState in *. cbn.
  constructor; [|done]. apply Hf. by inversion Hp.
Qed.

Lemma setAuthSuccess_coherent u t p :
  Forall coherent (states p) → Forall coherent (states (setAuthSuccess u t p)).
Proof. apply setAuthState_coherent. intros s _. by split. Qed.

Lemma setAuthLoggedOut_coherent p :
  Forall coherent (states p) → Forall coherent (states (setAuthLoggedOut p)).
Proof. apply setAuthState_coherent. intros s _. by split. Qed.

Lemma setAuthError_coherent err p :
  Forall coherent (states p) → Forall coherent (states (setAuthError err p)).
Proof. apply setAuthState_coherent. by intros s [? ?]. Qed.

Lemma clearError_coherent p :
  Forall coherent (states p) → Forall coherent (states (clearError p)).
Proof. apply setAuthState_coherent. by intros s [? ?]. Qed.

Lemma setAuthBusy_coherent p :
  Forall coherent (states p) → Forall coherent (states (setAuthBusy p)).
Proof. apply setAuthState_coherent. by intros s [? ?]. Qed.

(** Replacing the tokens keeps [isAuthenticated] as it was: harmless
    exactly because a state with a user always has tokens already. *)
Lemma setAuthTokens_coherent t p :
  Forall coherent (states p) → Forall coherent (states (setAuthTokens t p)).
Proof. apply setAuthState_coherent. intros s [? ?]. by split. Qed.

Create HintDb coherent.

#[local] Hint Resolve setAuthSuccess_coherent setAuthLoggedOut_coherent
  setAuthError_coherent clearError_coherent setAuthBusy_coherent
  setAuthTokens_coherent : coherent.

Lemma logout_coherent env w p :
  Forall coherent (states p) →
  Forall coherent (states (AuthContext.logout env w p).2).
Proof.
  intros Hp. unfold AuthContext.logout.
  destruct (AuthService.logout env w) as [[[]|e] w']; cbn [snd];
    auto with coherent.
Qed.

Lemma perform_coherent env op w p :
  Forall coherent (states p) →
  Forall coherent (states (perform env op w p).2).
Proof.
  intros Hp. destruct op; cbn [perform].
  - unfold AuthContext.login.
    destruct (AuthService.loginWithWorkOS env w) as [[[t u]|e] w'];
      cbn [snd]; auto with coherent.
  - by apply logout_coherent.
  - unfold AuthContext.refreshToken.
    match goal with
    | |- context [match ?m w with _ => _ end] =>
        destruct (m w) as [[t|e] w']
    end.
    + cbn [snd]. auto with coherent.
    + pose proof (logout_coherent env w' p Hp) as Hl.
      destruct (AuthContext.logout env w' p) as [w'' p'].
      cbn [snd] in *. auto with coherent.
  - cbn [snd]. auto with coherent.
  - unfold AuthContext.attemptSessionRestore.
    destruct (AuthService.restoreSession env w) as [[[[t u]|]|e] w'];
      cbn [snd]; auto with coherent.
Qed.

Lemma reachable_coherent p : reachable p → Forall coherent (states p).
Proof.
  induction 1 as [|env op w p _ IH].
  - constructor; [by split|constructor].
  - by apply perform_coherent.
Qed.

(** *** C8
    [isAuthenticated == (user != null && tokens != null)] holds in the
    initial state and in every state the provider passes through, at each
    [setAuthState] of [login], [logout], [refreshToken], the session
    restore (and [clearError]), on their success and failure paths, in
    whatever order and against whatever outside world they run. *)
Theorem isAuthenticated_invariant p :
  reachable p → Forall authenticated_iff_user_and_tokens (states p).
Proof.
  intros Hp. eapply Forall_impl; [by apply reachable_coherent|].
  apply coherent_authenticated_iff.
Qed.

(** The invariant along a restored session followed by a failed login. *)
Lemma isAuthenticated_invariant_restored :
  Forall authenticated_iff_user_and_tokens
    (states
       (perform Scenario.unreachable_server OpLogin
          (perform Scenario.unreachable_server OpSessionRestore
             (Scenario.holding "4600000" None) mount).1
          (perform Scenario.unreachable_server OpSessionRestore
             (Scenario.holding "4600000" None) mount).2).2).
Proof.
  apply isAuthenticated_invariant.
  do 2 apply reachable_perform. apply reachable_mount.
Defined.

End Invariant.

(* ===================================================================== *)
(** * What the services leave alone *)
(* ===================================================================== *)

Section Preserves.

Context (R : relation (gmap string string)) `{!PreOrder R}.

Lemma preserves_ret {A} (a : A) : preserves R (mret a).
Proof. intros w. cbn. reflexivity. Qed.

Lemma preserves_throw {A} e : preserves R (@throw A e).
Proof. intros w. cbn. reflexivity. Qed.

Lemma preserves_bind {A B} (m : M A) (f : A → M B) :
  preserves R m → (∀ a, preserves R (f a)) → preserves R (m ≫= f).
Proof.
  intros Hm Hf w. unfold mbind, M_bind, bind.
  specialize (Hm w). destruct (m w) as [[a|e] w']; cbn in *; [|done].
  etrans; [exact Hm|]. apply Hf.
Qed.

Lemma preserves_try_catch {A} (m : M A) h :
  preserves R m → (∀ e, preserves R (h e)) → preserves R (try_catch m h).
Proof.
  intros Hm Hh w. unfold try_catch.
  specialize (Hm w). destruct (m w) as [[a|e] w']; cbn in *; [done|].
  etrans; [exact Hm|]. apply Hh.
Qed.

Lemma preserves_promise_all {A} (ps : list (M A)) :
  Forall (preserves R) ps → preserves R (promise_all ps).
Proof.
  induction 1 as [|p ps Hp _ IH]; intros w; cbn; [reflexivity|].
  specialize (Hp w). destruct (p w) as [r w1]. cbn in Hp.
  specialize (IH w1). destruct (promise_all ps w1) as [rs w2]. cbn in *.
  by etrans.
Qed.

(** An interaction that does not go to the secure store. *)
Lemma preserves_interaction {A} (f : Sys → Result A) :
  preserves R (λ w, (f w, next w)).
Proof. intros w. cbn. reflexivity. Qed.

Lemma preserves_getItemAsync env k : preserves R (TokenStorage.getItemAsync env k).
Proof.
  intros w. unfold TokenStorage.getItemAsync.
  destruct (secure_store_rejects _ _); cbn; reflexivity.
Qed.

End Preserves.

Lemma same_at_PreOrder k : PreOrder (same_at k).
Proof.
  split; [done|]. intros m1 m2 m3. unfold same_at. congruence.
Qed.
#[local] Existing Instance same_at_PreOrder.

Lemma preserves_setItemAsync env k k' v :
  k ≠ k' → preserves (same_at k) (TokenStorage.setItemAsync env k' v).
Proof.
  intros Hk w. unfold TokenStorage.setItemAsync, same_at.
  destruct (secure_store_rejects _ _); cbn; [done|].
  by rewrite lookup_insert_ne.
Qed.

Lemma preserves_deleteItemAsync env k k' :
  k ≠ k' → preserves (same_at k) (TokenStorage.deleteItemAsync env k').
Proof.
  intros Hk w. unfold TokenStorage.deleteItemAsync, same_at.
  destruct (secure_store_rejects _ _); cbn; [done|].
  by rewrite lookup_delete_ne.
Qed.

Lemma eq_same_at {A} k (m : M A) : preserves eq m → preserves (same_at k) m.
Proof. intros H w. unfold same_at. by rewrite <- (H w). Qed.

(** One step of a proof that a service function preserves a relation,
    following the shape of the function. *)
Ltac preserves_step :=
  lazymatch goal with
  | |- preserves ?R (mbind _ _) => apply (preserves_bind R); [|intros ?]
  | |- preserves ?R (try_catch _ _) =>
      apply (preserves_try_catch R); [|intros ?]
  | |- preserves ?R (promise_all _) =>
      apply (preserves_promise_all R); repeat constructor
  | |- preserves ?R (mret _) => apply (preserves_ret R)
  | |- preserves ?R (throw _) => apply (preserves_throw R)
  | |- preserves ?R (TokenStorage.Date_now _) =>
      apply (preserves_interaction R)
  | |- preserves ?R (AuthService.fetch_token _ _) =>
      apply (preserves_interaction R)
  | |- preserves ?R (AuthService.fetch_userinfo _ _) =>
      apply (preserves_interaction R)
  | |- preserves ?R (AuthService.promptAsync _ _) =>
      apply (preserves_interaction R)
  | |- preserves ?R (AuthService.getRandomBytes _ _) =>
      apply (preserves_interaction R)
  | |- preserves ?R (TokenStorage.getItemAsync _ _) =>
      apply (preserves_getItemAsync R)
  | |- preserves (same_at _) (TokenStorage.setItemAsync _ _ _) =>
      by apply preserves_setItemAsync
  | |- preserves (same_at _) (TokenStorage.deleteItemAsync _ _) =>
      by apply preserves_deleteItemAsync
  | |- preserves _ (if ?b then _ else _) => destruct b
  | |- preserves _ (match ?x with _ => _ end) => destruct x
  | |- preserves _ (let _ := _ in _) => cbv zeta
  end.

Section Frames.

Import TokenStorage TokenStorage.STORAGE_KEYS AuthService.

Context (env : Env).

Lemma getTokens_reads : preserves eq (getTokens env).
Proof. unfold getTokens. repeat preserves_step. Qed.

Lemma isTokenExpired_reads b : preserves eq (isTokenExpired env b).
Proof. unfold isTokenExpired. repeat preserves_step. Qed.

Lemma exchangeCodeForTokens_reads code v :
  preserves eq (exchangeCodeForTokens env code v).
Proof. unfold exchangeCodeForTokens. repeat preserves_step. Qed.

Lemma fetchUserInfo_reads a : preserves eq (fetchUserInfo env a).
Proof. unfold fetchUserInfo. repeat preserves_step. Qed.

(** *** X1
    The read operations of the storage service, [getTokens],
    [isTokenExpired] and [getValidAccessToken], never change the secure
    store, whether the store answers or rejects. *)
Theorem storage_reads_only_read w b :
  store (getTokens env w).2 = store w
  ∧ store (isTokenExpired env b w).2 = store w
  ∧ store (TokenStorage.getValidAccessToken env w).2 = store w.
Proof.
  split_and!; symmetry.
  - apply getTokens_reads.
  - apply isTokenExpired_reads.
  - assert (preserves eq (TokenStorage.getValidAccessToken env)) as H; [|apply H].
    unfold TokenStorage.getValidAccessToken.
    preserves_step; [preserves_step|]; [apply isTokenExpired_reads| |];
      repeat preserves_step.
Qed.

Section Outside.

Context (k : string) (Hk : k ∉ storage_keys).

Lemma outside_keys :
  k ≠ ACCESS_TOKEN ∧ k ≠ REFRESH_TOKEN ∧ k ≠ ID_TOKEN
  ∧ k ≠ EXPIRES_AT ∧ k ≠ TOKEN_TYPE.
Proof. unfold storage_keys in Hk. set_solver. Qed.

Lemma storeTokens_frame t : preserves (same_at k) (storeTokens env t).
Proof.
  destruct outside_keys as (?&?&?&?&?).
  unfold storeTokens, JS.nonempty. repeat preserves_step.
Qed.

Lemma clearTokens_frame : preserves (same_at k) (clearTokens env).
Proof.
  destruct outside_keys as (?&?&?&?&?).
  unfold clearTokens. repeat preserves_step.
Qed.

Lemma refreshAccessToken_frame rt : preserves (same_at k) (refreshAccessToken env rt).
Proof.
  unfold refreshAccessToken.
  repeat first [apply storeTokens_frame | preserves_step].
Qed.

Lemma loginWithWorkOS_frame : preserves (same_at k) (loginWithWorkOS env).
Proof.
  unfold loginWithWorkOS, generateCodeVerifier, generateCodeChallenge.
  repeat first [apply storeTokens_frame
               | apply eq_same_at, exchangeCodeForTokens_reads
               | apply eq_same_at, fetchUserInfo_reads
               | preserves_step].
Qed.

Lemma restoreSession_frame : preserves (same_at k) (restoreSession env).
Proof.
  unfold restoreSession.
  repeat first [apply clearTokens_frame
               | apply refreshAccessToken_frame
               | apply eq_same_at, getTokens_reads
               | apply eq_same_at, isTokenExpired_reads
               | apply eq_same_at, fetchUserInfo_reads
               | preserves_step].
Qed.

Lemma getValidAccessToken_frame : preserves (same_at k) (AuthService.getValidAccessToken env).
Proof.
  unfold AuthService.getValidAccessToken.
  repeat first [apply refreshAccessToken_frame
               | apply eq_same_at, getTokens_reads
               | apply eq_same_at, isTokenExpired_reads
               | preserves_step].
Qed.

Lemma logout_frame : preserves (same_at k) (AuthService.logout env).
Proof.
  unfold AuthService.logout.
  repeat first [apply clearTokens_frame | preserves_step].
Qed.

End Outside.

End Frames.

#[local] Existing Instance same_at_PreOrder.

Section Untouched.

Import TokenStorage AuthService.

(** *** X2
    No operation touches the secure store outside the five token keys:
    whatever [login], [logout], [refreshToken], the session restore,
    [clearError], [getValidAccessToken], [storeTokens] or [clearTokens]
    do, and whether the store accepts or rejects, every other entry is
    afterwards what it was. *)
Theorem only_storage_keys_change env op w p t k :
  k ∉ storage_keys →
  store (perform env op w p).1 !! k = store w !! k
  ∧ store (AuthService.getValidAccessToken env w).2 !! k = store w !! k
  ∧ store (storeTokens env t w).2 !! k = store w !! k
  ∧ store (clearTokens env w).2 !! k = store w !! k.
Proof.
  intros Hk. split_and!.
  - destruct op; cbn [perform].
    + unfold AuthContext.login.
      pose proof (loginWithWorkOS_frame env k Hk w) as H.
      by destruct (loginWithWorkOS env w) as [[[? ?]|?] ?].
    + unfold AuthContext.logout.
      pose proof (logout_frame env k Hk w) as H.
      by destruct (AuthService.logout env w) as [[[]|?] ?].
    + unfold AuthContext.refreshToken.
      match goal with
      | |- context [match ?m w with _ => _ end] =>
          assert (preserves (same_at k) m) as Hm
      end.
      { repeat first [apply refreshAccessToken_frame
                     | apply eq_same_at, getTokens_reads
                     | preserves_step]; done. }
      specialize (Hm w).
      match goal with
      | |- context [match ?m w with _ => _ end] =>
          destruct (m w) as [[?|?] w']
      end; [done|].
      unfold AuthContext.logout.
      pose proof (logout_frame env k Hk w') as H.
      destruct (AuthService.logout env w') as [[[]|?] ?]; cbn in *;
        unfold same_at in *; congruence.
    + done.
    + unfold AuthContext.attemptSessionRestore.
      pose proof (restoreSession_frame env k Hk w) as H.
      by destruct (restoreSession env w) as [[[[? ?]|]|?] ?].
  - apply (getValidAccessToken_frame env k Hk).
  - apply (storeTokens_frame env k Hk).
  - apply (clearTokens_frame env k Hk).
Qed.

End Untouched.

Section StorageExtras.

Import TokenStorage TokenStorage.STORAGE_KEYS.

Ltac run :=
  unfold storeTokens, getTokens, isTokenExpired, clearTokens,
    setItemAsync, getItemAsync, deleteItemAsync, Date_now, try_catch,
    throw, mbind, mret, M_bind, M_ret, bind, ret, next;
  cbn [promise_all fst snd store tick].

Lemma accepting_from_le env n m :
  accepting_from env n → (n ≤ m)%nat → accepting_from env m.
Proof. intros H Hle k Hk. apply H. lia. Qed.

Lemma clearTokens_tick env w : (tick w ≤ tick (clearTokens env w).2)%nat.
Proof. destruct (clearTokens_cases env w) as (w' & [-> | ->] & H); done. Qed.

(** *** X3
    With a secure store that accepts the calls, [clearTokens()]
    succeeds whatever the store held, and right after it [getTokens()]
    returns [null], [isTokenExpired] returns [true] for every buffer and
    the storage service's [getValidAccessToken()] returns [null]. *)
Theorem reads_after_clearTokens env w b :
  accepting_from env (tick w) →
  let w' := (clearTokens env w).2 in
  (clearTokens env w).1 = Ok ()
  ∧ (getTokens env w').1 = Ok None
  ∧ (isTokenExpired env b w').1 = Ok true
  ∧ (TokenStorage.getValidAccessToken env w').1 = Ok None.
Proof.
  intros Hok.
  pose proof (clearTokens_tick env w) as Htick.
  destruct (clearTokens_accepted env w Hok) as (w' & Hc & Ha & _ & _ & Hx & _).
  rewrite Hc in *. cbn [fst snd] in *.
  assert (accepting_from env (tick w')) as Hok'
    by (by eapply accepting_from_le).
  split; [done|]. split_and!.
  - rewrite (getTokens_read env w' Hok'), Ha. done.
  - rewrite isTokenExpired_eval, Hx, (Hok' _ (le_n _)). done.
  - unfold TokenStorage.getValidAccessToken. plumbing.
    pose proof (isTokenExpired_eval env (Int 300) w') as He.
    rewrite Hx, (Hok' _ (le_n _)) in He.
    destruct (isTokenExpired env (Int 300) w') as [r w'']. cbn in He.
    by subst r.
Qed.

(** *** X4
    [isTokenExpired] is monotone in its buffer: in the same world, if
    it answers [true] for a buffer it answers [true] for every larger
    one. *)
Theorem isTokenExpired_monotone env w b1 b2 :
  b1 ≤ b2 →
  (isTokenExpired env (Int b1) w).1 = Ok true →
  (isTokenExpired env (Int b2) w).1 = Ok true.
Proof.
  intros Hb. rewrite !isTokenExpired_eval.
  destruct (secure_store_rejects env (tick w)); [done|].
  destruct (JS.truthy _); [|done].
  destruct (JS.parseInt _) as [x|]; [|done]. cbn.
  intros [= H]. f_equal. apply Z.leb_le. apply Z.leb_le in H. lia.
Qed.

(** *** X5
    A token set stored with [expiresIn = e] seconds when the clock
    read [stored_at] is reported expired for buffer [b], when the clock
    reads [checked_at], exactly when
    [stored_at + e * 1000 - checked_at <= b * 1000]: for an expiry
    instant [stored_at + e * 1000] and a buffer [b * 1000] that are safe
    integers, the instant not before the epoch. *)
Theorem isTokenExpired_after_storeTokens env w t e b :
  accepting_from env (tick w) →
  expiresIn t = Int e →
  let w1 := (storeTokens env t w).2 in
  let stored_at := date_now env (tick w) in
  let checked_at := date_now env (S (tick w1)) in
  time_value stored_at → time_value checked_at →
  0 ≤ stored_at + e * 1000 ≤ JS.MAX_SAFE_INTEGER →
  JS.isSafeInteger (b * 1000) →
  (isTokenExpired env (Int b) w1).1
  = Ok (bool_decide (stored_at + e * 1000 - checked_at ≤ b * 1000)).
Proof.
  intros Hok He w1' stored_at checked_at Hsa Hca Hsafe Hb.
  subst w1' stored_at checked_at.
  unfold JS.MAX_SAFE_INTEGER in Hsafe.
  destruct (storeTokens_accepted env t w Hok) as [w1 Hstore].
  destruct (storeTokens_Ok env t w w1 Hstore) as (_ & Hx & _ & _ & _ & Htick).
  rewrite Hstore in *. cbn [snd] in *.
  rewrite isTokenExpired_eval, Hx, (Hok (tick w1)) by lia.
  unfold expiresAt_of. rewrite toString_truthy. cbn [default from_option].
  unfold Datatypes.id. rewrite He. cbn [JS.add JS.mul].
  rewrite parseInt_toString by lia. cbn.
  f_equal. case_bool_decide; [apply Z.leb_le|apply Z.leb_gt]; lia.
Qed.

(** *** X7
    A token set whose [expiresIn] is not a number is stored with the
    expiry entry ["NaN"], and from then on [isTokenExpired] answers
    [false] for every buffer at every time: such a token never expires. *)
Theorem storeTokens_NaN_never_expires env w t b :
  accepting_from env (tick w) →
  expiresIn t = NaN →
  let w1 := (storeTokens env t w).2 in
  store w1 !! EXPIRES_AT = Some "NaN"
  ∧ (isTokenExpired env b w1).1 = Ok false.
Proof.
  intros Hok He.
  destruct (storeTokens_accepted env t w Hok) as [w1 Hstore].
  destruct (storeTokens_Ok env t w w1 Hstore) as (_ & Hx & _ & _ & _ & Htick).
  rewrite Hstore. cbn [snd]. unfold expiresAt_of in Hx. rewrite He in Hx.
  cbn in Hx. split; [done|].
  rewrite isTokenExpired_eval, Hx, (Hok (tick w1)) by lia. done.
Qed.

(** *** X8
    [storeTokens] is not atomic: when the secure store accepts the
    first write and rejects the second, the call throws its own error and
    the store is left with the new access token beside the old expiry. *)
Theorem storeTokens_torn_write env w t :
  secure_store_rejects env (S (tick w)) = false →
  secure_store_rejects env (S (S (tick w))) = true →
  let result := storeTokens env t w in
  result.1 = Throw (JsError "Failed to securely store authentication tokens")
  ∧ store result.2 !! ACCESS_TOKEN = Some (accessToken t)
  ∧ store result.2 !! EXPIRES_AT = store w !! EXPIRES_AT.
Proof.
  intros H1 H2. run. rewrite H1. cbn [tick store]. rewrite H2.
  cbn [tick store]. unfold JS.nonempty.
  repeat (case_match; simplify_eq/=); try done.
  all: unfold ACCESS_TOKEN, EXPIRES_AT, TOKEN_TYPE, REFRESH_TOKEN, ID_TOKEN.
  all: by simplify_map_eq.
Qed.

(** *** X6
    Whatever [getTokens()] returns is well formed: the access token
    and the token type are non-empty, the refresh and id tokens are
    absent rather than empty, and [expiresIn] is never negative (it is a
    non-negative integer, or [NaN] when the expiry entry has no digits). *)
Theorem getTokens_well_formed env w t w' :
  getTokens env w = (Ok (Some t), w') →
  JS.nonempty (accessToken t) = true
  ∧ JS.nonempty (tokenType t) = true
  ∧ refreshToken t ≠ Some ""
  ∧ idToken t ≠ Some ""
  ∧ (expiresIn t = NaN ∨ ∃ e, expiresIn t = Int e ∧ 0 ≤ e).
Proof.
  run.
  repeat (destruct (secure_store_rejects env _); cbn [tick store]); try done.
  cbn -[JS.parseInt].
  destruct (store w !! ACCESS_TOKEN) as [[|c a]|]; cbn -[JS.parseInt]; try done.
  destruct (store w !! EXPIRES_AT) as [[|c' x]|]; cbn -[JS.parseInt]; try done.
  destruct (store w !! TOKEN_TYPE) as [[|c'' y]|]; cbn -[JS.parseInt]; try done.
  intros [= <- <-]. cbn -[JS.parseInt]. split_and!; try done.
  - by destruct (store w !! REFRESH_TOKEN) as [[|??]|].
  - by destruct (store w !! ID_TOKEN) as [[|??]|].
  - destruct (JS.parseInt _) as [z|]; cbn; [right|by left].
    eexists. split; [done|]. lia.
Qed.

(** *** X9
    The storage service's [getValidAccessToken()] never throws, and
    when it returns a token, that token is the stored access token and
    [isTokenExpired(300)] answers [false] in that world. *)
Theorem storage_getValidAccessToken_spec env w :
  ∃ r, (TokenStorage.getValidAccessToken env w).1 = Ok r
       ∧ ∀ a, r = Some a →
              store w !! ACCESS_TOKEN = Some a
              ∧ (isTokenExpired env (Int 300) w).1 = Ok false.
Proof.
  unfold TokenStorage.getValidAccessToken. plumbing.
  destruct (isTokenExpired_total env (Int 300) w) as (r & w' & -> & Hs & _).
  destruct r; [by eexists|]. unfold getItemAsync.
  destruct (secure_store_rejects env (tick w')); cbn; [by eexists|].
  eexists. split; [done|]. intros a Ha. by rewrite <- Hs.
Qed.

End StorageExtras.

Section ServiceExtras.

Import TokenStorage TokenStorage.STORAGE_KEYS AuthService.

(** *** X10
    A code challenge is URL safe whatever the digest is: it contains
    no [+], no [/] and no [=], is never longer than the digest, and
    computing it is no interaction with the outside world. *)
Lemma url_char_url_safe c :
  Ascii.eqb (url_char c) "=" = false → is_url_safe (url_char c) = true.
Proof. by destruct c as [[] [] [] [] [] [] [] []]. Qed.

Lemma to_base64url_url_safe s : all_chars is_url_safe (to_base64url s) = true.
Proof.
  induction s as [|c s IH]; [done|].
  rewrite to_base64url_String.
  destruct (Ascii.eqb (url_char c) "=") eqn:E; [done|].
  cbn [all_chars]. by rewrite IH, url_char_url_safe.
Qed.

Theorem generateCodeChallenge_url_safe env verifier w :
  ∃ challenge,
    generateCodeChallenge env verifier w = (Ok challenge, w)
    ∧ all_chars is_url_safe challenge = true
    ∧ (String.length challenge
       ≤ String.length (digest_sha256_base64 env verifier))%nat.
Proof.
  eexists. split; [done|]. split; [apply to_base64url_url_safe|].
  induction (digest_sha256_base64 env verifier) as [|c s IH]; [done|].
  rewrite to_base64url_String. destruct (Ascii.eqb _ _); cbn; lia.
Qed.

(** *** X11
    When the digest is the base64 of 32 bytes, as SHA-256 yields,
    the code challenge is 43 characters of the base64url alphabet. *)
Theorem generateCodeChallenge_43 env verifier w bytes :
  length bytes = 32%nat →
  digest_sha256_base64 env verifier = JS.btoa (JS.fromCharCode bytes) →
  ∃ challenge,
    generateCodeChallenge env verifier w = (Ok challenge, w)
    ∧ String.length challenge = 43%nat
    ∧ all_chars is_base64url_char challenge = true.
Proof.
  intros Hlen Hdigest. eexists. split; [done|]. rewrite Hdigest.
  unfold JS.btoa. rewrite list_ascii_of_fromCharCode.
  pose proof (btoa_codes_base64url (map ascii_of_byte bytes)) as [Hl Ha].
  cbv zeta in Hl, Ha. rewrite length_map, Hlen in Hl. done.
Qed.

(** *** X12
    [exchangeCodeForTokens] is one request and never touches the
    store.  When it succeeds, the server's answer to the authorization
    code request carrying this code and this verifier had exactly the
    returned fields; every failure (no network, an HTTP error status, an
    unreadable body) is thrown as [NETWORK_ERROR] with the same fixed
    message. *)
Theorem exchangeCodeForTokens_outcomes env code verifier w :
  let result := exchangeCodeForTokens env code verifier w in
  result.2 = next w
  ∧ match result.1 with
    | Ok t =>
        token_endpoint env (tick w) (exchange_request env code verifier)
        = HttpOk (Ok {| access_token := accessToken t;
                        refresh_token := refreshToken t;
                        id_token := idToken t;
                        expires_in := expiresIn t;
                        token_type := tokenType t |})
    | Throw e =>
        ∃ cause,
          e = AuthError NETWORK_ERROR
                "Failed to exchange authorization code for tokens"
                (Some cause)
    end.
Proof.
  unfold exchangeCodeForTokens, fetch_token. plumbing.
  fold (exchange_request env code verifier).
  destruct (token_endpoint env (tick w) _) as [e|st d|[[] |e]]; cbn; eauto.
Qed.

(** *** X13
    [fetchUserInfo] is one request, sent with
    [Authorization: Bearer <token>], and never touches the store.  When it
    succeeds the profile is the server's claims field by field; every
    failure is thrown as [NETWORK_ERROR] with the same fixed message. *)
Theorem fetchUserInfo_outcomes env token w :
  let result := fetchUserInfo env token w in
  result.2 = next w
  ∧ match result.1 with
    | Ok u =>
        ∃ info,
          userinfo_endpoint env (tick w) ("Bearer " +:+ token)
          = HttpOk (Ok info)
          ∧ u = {| id := sub info;
                   email := email_ info;
                   firstName := given_name info;
                   lastName := family_name info;
                   profilePictureUrl := picture info;
                   organizationId := organization_id info |}
    | Throw e =>
        ∃ cause,
          e = AuthError NETWORK_ERROR "Failed to fetch user information"
                (Some cause)
    end.
Proof.
  unfold fetchUserInfo, fetch_userinfo. plumbing.
  destruct (userinfo_endpoint env (tick w) _) as [e|st d|[info|e]]; cbn; eauto.
Qed.

Lemma storeTokens_throws env t w e w' :
  storeTokens env t w = (Throw e, w') →
  e = JsError "Failed to securely store authentication tokens".
Proof.
  unfold storeTokens, try_catch.
  match goal with
  | |- context [match ?m w with _ => _ end] => destruct (m w) as [[?|?] ?]
  end; [done|]. by intros [= <- _].
Qed.

(** *** X14
    Every failure of [refreshAccessToken] is thrown as
    [REFRESH_FAILED] with the same fixed message; this includes the case
    where the server answered with new tokens and the secure store then
    rejected the write. *)
Theorem refreshAccessToken_failures env rt w :
  (∀ e w', refreshAccessToken env rt w = (Throw e, w') →
     ∃ cause,
       e = AuthError REFRESH_FAILED "Failed to refresh access token"
             (Some cause))
  ∧ (∀ tokenData,
       token_endpoint env (tick w) (refresh_request env rt)
       = HttpOk (Ok tokenData) →
       secure_store_rejects env (S (S (tick w))) = true →
       (refreshAccessToken env rt w).1
       = Throw (AuthError REFRESH_FAILED "Failed to refresh access token"
                  (Some (JsError
                     "Failed to securely store authentication tokens")))).
Proof.
  split.
  - intros e w'. unfold refreshAccessToken, try_catch.
    match goal with
    | |- context [match ?m w with _ => _ end] => destruct (m w) as [[?|?] ?]
    end; [done|]. intros [= <- _]. eauto.
  - intros tokenData Hfetch Hrej.
    unfold refreshAccessToken, fetch_token. plumbing.
    fold (refresh_request env rt). rewrite Hfetch.
    set (t := {| accessToken := access_token tokenData |}).
    destruct (storeTokens env t (next w)) as [[[]|e] w1] eqn:Hstore.
    + exfalso. revert Hstore.
      unfold storeTokens, setItemAsync, Date_now, try_catch, next.
      plumbing. cbn [promise_all tick store]. rewrite Hrej.
      cbn [tick store].
      repeat (case_match; simplify_eq/=); done.
    + cbn. by rewrite (storeTokens_throws _ _ _ _ _ Hstore).
Qed.

End ServiceExtras.

Section LoginExtras.

Import TokenStorage TokenStorage.STORAGE_KEYS AuthService.

Lemma exchangeCodeForTokens_throws env code verifier w e w' :
  exchangeCodeForTokens env code verifier w = (Throw e, w') →
  ∃ cause, e = AuthError NETWORK_ERROR
                 "Failed to exchange authorization code for tokens"
                 (Some cause).
Proof.
  unfold exchangeCodeForTokens, try_catch.
  match goal with
  | |- context [match ?m w with _ => _ end] => destruct (m w) as [[?|?] ?]
  end; [done|]. intros [= <- _]. eauto.
Qed.

Lemma fetchUserInfo_throws env token w e w' :
  fetchUserInfo env token w = (Throw e, w') →
  ∃ cause, e = AuthError NETWORK_ERROR "Failed to fetch user information"
                 (Some cause).
Proof.
  unfold fetchUserInfo, try_catch.
  match goal with
  | |- context [match ?m w with _ => _ end] => destruct (m w) as [[?|?] ?]
  end; [done|]. intros [= <- _]. eauto.
Qed.

Ltac login_unfold :=
  unfold loginWithWorkOS, generateCodeVerifier, getRandomBytes,
    generateCodeChallenge, promptAsync, next; plumbing; cbn [tick store].

(** The browser came back with a code: the rest of [loginWithWorkOS]. *)
Lemma loginWithWorkOS_with_code env w code :
  prompt_async env (S (tick w)) (authRequest_at env w)
  = Ok (ResultSuccess (Some code)) →
  JS.nonempty code = true →
  loginWithWorkOS env w =
    match exchangeCodeForTokens env code (codeVerifier_at env w)
            (after_prompt w) with
    | (Throw e, w3) => (Throw e, w3)
    | (Ok t, w3) =>
        match storeTokens env t w3 with
        | (Throw e, w4) =>
            (Throw (AuthError UNKNOWN_ERROR
                      "An unexpected error occurred during login" (Some e)),
             w4)
        | (Ok _, w4) =>
            match fetchUserInfo env (accessToken t) w4 with
            | (Throw e, w5) => (Throw e, w5)
            | (Ok u, w5) => (Ok (t, u), w5)
            end
        end
    end.
Proof.
  intros Hprompt Hcode. login_unfold.
  change (prompt_async env (S (tick w)) _)
    with (prompt_async env (S (tick w)) (authRequest_at env w)).
  rewrite Hprompt. unfold JS.nonempty in Hcode. rewrite Hcode.
  cbn [negb default from_option]. unfold Datatypes.id.
  change {| store := store w; tick := S (S (tick w)) |} with (after_prompt w).
  fold (codeVerifier_at env w).
  destruct (exchangeCodeForTokens env code (codeVerifier_at env w)
              (after_prompt w)) as [[t|e] w3] eqn:Hex.
  - destruct (storeTokens env t w3) as [[[]|e] w4] eqn:Hst.
    + destruct (fetchUserInfo env (accessToken t) w4) as [[u|e] w5] eqn:Hf;
        [done|].
      by destruct (fetchUserInfo_throws _ _ _ _ _ Hf) as [c ->].
    + by rewrite (storeTokens_throws _ _ _ _ _ Hst).
  - by destruct (exchangeCodeForTokens_throws _ _ _ _ _ _ Hex) as [c ->].
Qed.

(** The browser did not come back with a code. *)
Lemma loginWithWorkOS_without_code env w :
  (∀ code, prompt_async env (S (tick w)) (authRequest_at env w)
           = Ok (ResultSuccess (Some code)) → JS.nonempty code = false) →
  ∃ e, loginWithWorkOS env w = (Throw e, after_prompt w)
       ∧ match prompt_async env (S (tick w)) (authRequest_at env w) with
         | Throw (AuthError ty m c) => e = AuthError ty m c
         | Throw (JsError m) =>
             e = AuthError UNKNOWN_ERROR
                   "An unexpected error occurred during login"
                   (Some (JsError m))
         | Ok ResultCancel | Ok ResultDismiss =>
             e = AuthError USER_CANCELLED
                   "User cancelled the authentication process" None
         | Ok (ResultSuccess _) =>
             e = AuthError INVALID_CREDENTIALS
                   "No authorization code received" None
         | Ok _ =>
             e = AuthError INVALID_CREDENTIALS "Authentication failed" None
         end.
Proof.
  intros Hcode. login_unfold.
  change (prompt_async env (S (tick w)) _)
    with (prompt_async env (S (tick w)) (authRequest_at env w)) in *.
  change {| store := store w; tick := S (S (tick w)) |} with (after_prompt w).
  destruct (prompt_async env (S (tick w)) (authRequest_at env w))
    as [[| | | | |[code|]]|[m|ty m c]]; try (by eexists).
  specialize (Hcode code eq_refl). unfold JS.nonempty in Hcode.
  rewrite Hcode. by eexists.
Qed.


Lemma exchangeCodeForTokens_Ok env code verifier w t w' :
  exchangeCodeForTokens env code verifier w = (Ok t, w') →
  w' = next w
  ∧ token_endpoint env (tick w) (exchange_request env code verifier)
    = HttpOk (Ok {| access_token := accessToken t;
                    refresh_token := refreshToken t;
                    id_token := idToken t;
                    expires_in := expiresIn t;
                    token_type := tokenType t |}).
Proof.
  unfold exchangeCodeForTokens, fetch_token. plumbing.
  fold (exchange_request env code verifier).
  destruct (token_endpoint env (tick w) _) as [e|st d|[[] |e]]; try done.
  by intros [= <- <-].
Qed.

Lemma refreshAccessToken_Ok env rt w t w' :
  refreshAccessToken env rt w = (Ok t, w') →
  store w' !! ACCESS_TOKEN = Some (accessToken t)
  ∧ (JS.nonempty rt = true → JS.truthy (refreshToken t) = true).
Proof.
  unfold refreshAccessToken, fetch_token. plumbing.
  destruct (token_endpoint env (tick w) _) as [e|st d|[data|e]]; try done.
  set (t0 := {| accessToken := access_token data |}).
  destruct (storeTokens env t0 (next w)) as [[[]|e] w1] eqn:Hstore; [|done].
  intros [= <- <-].
  destruct (storeTokens_Ok env t0 (next w) w1 Hstore) as (Ha & _).
  split; [done|]. subst t0. cbn. unfold JS.nonempty, JS.or_else.
  destruct (refresh_token data) as [[|c s]|]; cbn; try done.
Qed.

(** *** X15
    When the browser does not come back with a non-empty
    authorization code (cancelled, dismissed, failed, or a success
    without code), [loginWithWorkOS] throws right after the prompt: no
    token request is made, the store is untouched, and [login] leaves
    user and tokens as they were. *)
Theorem loginWithWorkOS_stops_without_code env w p :
  (∀ code, prompt_async env (S (tick w)) (authRequest_at env w)
           = Ok (ResultSuccess (Some code)) → JS.nonempty code = false) →
  (∃ e, (loginWithWorkOS env w).1 = Throw e)
  ∧ (loginWithWorkOS env w).2 = after_prompt w
  ∧ (AuthContext.login env w p).1 = after_prompt w
  ∧ user (authState (AuthContext.login env w p).2) = user (authState p)
  ∧ tokens (authState (AuthContext.login env w p).2) = tokens (authState p).
Proof.
  intros Hcode.
  destruct (loginWithWorkOS_without_code env w Hcode) as (e & H & _).
  unfold AuthContext.login. rewrite H. cbn. split_and!; eauto.
Qed.

(** *** X16
    When [loginWithWorkOS] succeeds, the browser returned a
    non-empty code, the token endpoint answered the authorization code
    request carrying that code and the verifier drawn for this login with
    exactly the returned tokens, the store holds the returned access
    token and token type, and [login] ends in the authenticated state
    with the returned user and tokens. *)
Theorem loginWithWorkOS_success env w p t u w' :
  loginWithWorkOS env w = (Ok (t, u), w') →
  (∃ code,
     prompt_async env (S (tick w)) (authRequest_at env w)
     = Ok (ResultSuccess (Some code))
     ∧ JS.nonempty code = true
     ∧ token_endpoint env (S (S (tick w)))
         (exchange_request env code (codeVerifier_at env w))
       = HttpOk (Ok {| access_token := accessToken t;
                       refresh_token := refreshToken t;
                       id_token := idToken t;
                       expires_in := expiresIn t;
                       token_type := tokenType t |}))
  ∧ store w' !! ACCESS_TOKEN = Some (accessToken t)
  ∧ store w' !! TOKEN_TYPE = Some (tokenType t)
  ∧ AuthContext.login env w p = (w', setAuthSuccess u t (setAuthBusy p))
  ∧ authState (AuthContext.login env w p).2 = authenticatedState u t.
Proof.
  intros Hlogin.
  assert (∃ code, prompt_async env (S (tick w)) (authRequest_at env w)
                  = Ok (ResultSuccess (Some code))
                  ∧ JS.nonempty code = true) as (code & Hprompt & Hcode).
  { destruct (prompt_async env (S (tick w)) (authRequest_at env w))
      as [[| | | | |[code|]]|e] eqn:Hp.
    6: destruct (JS.nonempty code) eqn:Hc; [by eauto|].
    all: exfalso.
    all: destruct (loginWithWorkOS_without_code env w) as (e' & H & _);
      [intros c; rewrite Hp; try done; by intros [= <-]
      |by rewrite Hlogin in H]. }
  pose proof (loginWithWorkOS_with_code env w code Hprompt Hcode) as H.
  rewrite Hlogin in H.
  destruct (exchangeCodeForTokens env code (codeVerifier_at env w)
              (after_prompt w)) as [[t0|e] w3] eqn:Hex; [|done].
  destruct (storeTokens env t0 w3) as [[[]|e] w4] eqn:Hst; [|done].
  destruct (fetchUserInfo env (accessToken t0) w4) as [[u0|e] w5] eqn:Hf;
    [|done].
  injection H as <- <- <-.
  destruct (exchangeCodeForTokens_Ok _ _ _ _ _ _ Hex) as [-> Hfetch].
  destruct (storeTokens_Ok _ _ _ _ Hst) as (Ha & _ & Hty & _).
  pose proof (fetchUserInfo_reads env (accessToken t) w4) as Hsame.
  rewrite Hf in Hsame. cbn in Hsame.
  split; [by eauto|]. rewrite <- Hsame.
  unfold AuthContext.login. rewrite Hlogin. done.
Qed.

(** *** X17
    When the code exchange and the storing succeed and the user
    profile cannot be fetched, [login] fails with the network message and
    leaves user and tokens as they were, but the new tokens stay in the
    secure store. *)
Theorem login_fails_after_storing env w p code t w3 w4 e w5 :
  prompt_async env (S (tick w)) (authRequest_at env w)
  = Ok (ResultSuccess (Some code)) →
  JS.nonempty code = true →
  exchangeCodeForTokens env code (codeVerifier_at env w) (after_prompt w)
  = (Ok t, w3) →
  storeTokens env t w3 = (Ok (), w4) →
  fetchUserInfo env (accessToken t) w4 = (Throw e, w5) →
  let result := AuthContext.login env w p in
  store result.1 !! ACCESS_TOKEN = Some (accessToken t)
  ∧ store result.1 !! TOKEN_TYPE = Some (tokenType t)
  ∧ user (authState result.2) = user (authState p)
  ∧ tokens (authState result.2) = tokens (authState p)
  ∧ error (authState result.2)
    = Some "Network error. Please check your connection and try again".
Proof.
  intros Hprompt Hcode Hex Hst Hf.
  pose proof (loginWithWorkOS_with_code env w code Hprompt Hcode) as H.
  rewrite Hex, Hst, Hf in H.
  destruct (storeTokens_Ok _ _ _ _ Hst) as (Ha & _ & Hty & _).
  pose proof (fetchUserInfo_reads env (accessToken t) w4) as Hsame.
  rewrite Hf in Hsame. cbn in Hsame.
  destruct (fetchUserInfo_throws _ _ _ _ _ Hf) as [c ->].
  unfold AuthContext.login. rewrite H. cbn. by rewrite <- Hsame.
Qed.

(** *** X18
    Provided the browser prompt does not itself reject with an
    [AuthError], [login] leaves in the error field either nothing or one
    of four fixed messages; no server or storage message is ever shown. *)
Theorem login_error_messages env w p :
  (∀ e, prompt_async env (S (tick w)) (authRequest_at env w) = Throw e →
        ∃ m, e = JsError m) →
  let after := authState (AuthContext.login env w p).2 in
  error after = None
  ∨ ∃ msg, error after = Some msg ∧ msg ∈ login_messages.
Proof.
  intros Hthrow. cbv zeta. unfold AuthContext.login, login_messages.
  assert ((∃ code, prompt_async env (S (tick w)) (authRequest_at env w)
                   = Ok (ResultSuccess (Some code))
                   ∧ JS.nonempty code = true)
          ∨ (∀ code, prompt_async env (S (tick w)) (authRequest_at env w)
                     = Ok (ResultSuccess (Some code)) →
                     JS.nonempty code = false)) as [(code & Hp & Hc)|Hno].
  { destruct (prompt_async env (S (tick w)) (authRequest_at env w))
      as [[| | | | |[code|]]|e]; try (by right).
    destruct (JS.nonempty code) eqn:Hc; [left; by eauto|].
    right. by intros c [= <-]. }
  - rewrite (loginWithWorkOS_with_code env w code Hp Hc).
    destruct (exchangeCodeForTokens _ _ _ _) as [[t|e] w3] eqn:Hex.
    + destruct (storeTokens env t w3) as [[[]|e] w4] eqn:Hst.
      * destruct (fetchUserInfo env (accessToken t) w4) as [[u|e] w5] eqn:Hf;
          [by left|].
        destruct (fetchUserInfo_throws _ _ _ _ _ Hf) as [c ->].
        right. eexists. split; [done|]. set_solver.
      * right. eexists. split; [done|]. set_solver.
    + destruct (exchangeCodeForTokens_throws _ _ _ _ _ _ Hex) as [c ->].
      right. eexists. split; [done|]. set_solver.
  - destruct (loginWithWorkOS_without_code env w Hno) as (e & -> & He).
    right.
    destruct (prompt_async env (S (tick w)) (authRequest_at env w))
      as [[| | | | |[code|]]|[m|ty m c]] eqn:Hp.
    9: by destruct (Hthrow _ eq_refl).
    all: rewrite He; eexists; (split; [done|]); set_solver.
Qed.

End LoginExtras.

Section SessionExtras.

Import TokenStorage TokenStorage.STORAGE_KEYS AuthService.

Lemma never_rejecting env n : accepting_from env 0 → accepting_from env n.
Proof. intros H k _. apply H. lia. Qed.

(** *** X19
    The authentication service's [getValidAccessToken()] never
    throws, and a token it returns is the access token the store holds
    when the call returns. *)
Theorem getValidAccessToken_total env w :
  ∃ r, (AuthService.getValidAccessToken env w).1 = Ok r
       ∧ ∀ a, r = Some a →
              store (AuthService.getValidAccessToken env w).2 !! ACCESS_TOKEN
              = Some a.
Proof.
  unfold AuthService.getValidAccessToken. plumbing.
  destruct (getTokens env w) as [[[t|]|e] w1] eqn:Hget; try by eexists.
  destruct (getTokens_Some _ _ _ _ Hget) as (Hst & Ha & _).
  destruct (isTokenExpired_total env (tokenRefreshBuffer (config env)) w1)
    as (r & w2 & -> & Hst2 & _).
  destruct r; cbn [andb].
  - destruct (JS.truthy (refreshToken t)); [|by eexists].
    destruct (refreshAccessToken env _ w2) as [[nt|e] w3] eqn:Href;
      [|by eexists].
    destruct (refreshAccessToken_Ok _ _ _ _ _ Href) as [Hnew _].
    eexists. split; [done|]. by intros a [= <-].
  - eexists. split; [done|]. intros a [= <-]. cbn. by rewrite Hst2, Hst.
Qed.

(** *** X20
    With a secure store that never rejects, the session restore
    ends in one of two ways: logged out, with the store untouched when no
    complete token set was stored and emptied otherwise; or authenticated,
    with tokens whose access token is the one in the store. *)
Theorem attemptSessionRestore_outcomes env w p :
  accepting_from env 0 →
  let result := AuthContext.attemptSessionRestore env w p in
  (authState result.2 = loggedOutState
   ∧ ((getTokens env w).1 = Ok None → store result.1 = store w)
   ∧ ((getTokens env w).1 ≠ Ok None → cleared (store result.1)))
  ∨ (∃ u t,
       authState result.2 = authenticatedState u t
       ∧ store result.1 !! ACCESS_TOKEN = Some (accessToken t)).
Proof.
  intros Hok. cbv zeta.
  unfold AuthContext.attemptSessionRestore, restoreSession. plumbing.
  pose proof (getTokens_read env w (never_rejecting env _ Hok)) as Hread.
  destruct (getTokens env w) as [[[t|]|e] w1] eqn:Hget.
  - destruct (getTokens_Some _ _ _ _ Hget) as (Hst & Ha & _).
    destruct (isTokenExpired_total env (tokenRefreshBuffer (config env)) w1)
      as (r & w2 & -> & Hst2 & _).
    assert (∀ w3, ∃ w4, clearTokens env w3 = (Ok (), w4) ∧ cleared (store w4))
      as Hclear.
    { intros w3. apply clearTokens_accepted, never_rejecting, Hok. }
    destruct r; cbn [andb].
    + destruct (JS.truthy (refreshToken t)).
      * destruct (refreshAccessToken env _ w2) as [[nt|e] w3] eqn:Href.
        -- destruct (refreshAccessToken_Ok _ _ _ _ _ Href) as [Hnew _].
           destruct (fetchUserInfo env (accessToken nt) w3)
             as [[u|e] w4] eqn:Hf.
           ++ right. exists u, nt. split; [done|].
              pose proof (fetchUserInfo_reads env (accessToken nt) w3) as Hs.
              rewrite Hf in Hs. cbn in *. by rewrite <- Hs.
           ++ destruct (Hclear w4) as (w5 & -> & Hcl). by left.
        -- destruct (Hclear w3) as (w5 & -> & Hcl). by left.
      * destruct (Hclear w2) as (w5 & -> & Hcl). by left.
    + destruct (fetchUserInfo env (accessToken t) w2) as [[u|e] w4] eqn:Hf.
      * right. exists u, t. split; [done|].
        pose proof (fetchUserInfo_reads env (accessToken t) w2) as Hs.
        rewrite Hf in Hs. cbn in *. by rewrite <- Hs, Hst2, Hst.
      * destruct (Hclear w4) as (w5 & -> & Hcl). by left.
  - left. split; [done|]. split; [|done]. intros _.
    pose proof (getTokens_reads env w) as Hs. by rewrite Hget in Hs.
  - done.
Qed.

(** *** X21
    With a secure store that never rejects, [refreshToken()] called
    while no refresh token is stored ends logged out with the session
    expiry message, and the stored tokens are removed. *)
Theorem refreshToken_without_refresh_token env w p :
  accepting_from env 0 →
  JS.truthy (store w !! REFRESH_TOKEN) = false →
  let result := AuthContext.refreshToken env w p in
  authState result.2
  = {| user := None; tokens := None; isLoading := false;
       isAuthenticated := false;
       error := Some "Your session has expired. Please log in again" |}
  ∧ cleared (store result.1).
Proof.
  intros Hok Hrt. cbv zeta. unfold AuthContext.refreshToken. plumbing.
  rewrite (getTokens_read env w (never_rejecting env _ Hok)).
  assert (∀ w3, ∃ w4, AuthService.logout env w3 = (Ok (), w4)
                      ∧ cleared (store w4)) as Hlogout.
  { intros w3. unfold AuthService.logout, try_catch.
    destruct (clearTokens_accepted env w3 (never_rejecting env _ Hok))
      as (w4 & -> & Hcl). eauto. }
  unfold AuthContext.logout. cbv beta iota.
  destruct (_ || _); cbn [mbind option_bind option_ret refreshToken].
  - cbn [JS.truthy negb].
    destruct (Hlogout {| store := store w; tick := 5 + tick w |})
      as (w4 & -> & Hcl). done.
  - assert (JS.truthy (JS.or_undefined (store w !! REFRESH_TOKEN)) = false)
      as -> by (unfold JS.or_undefined; by rewrite Hrt).
    cbn [negb].
    destruct (Hlogout {| store := store w; tick := 6 + tick w |})
      as (w4 & -> & Hcl). done.
Qed.

(** *** X22
    When [refreshToken()] ends without an error, the user,
    [isAuthenticated] and [isLoading] are what they were, and the tokens
    are a new set whose access token is in the store and which carries a
    non-empty refresh token. *)
Theorem refreshToken_success env w p :
  let result := AuthContext.refreshToken env w p in
  error (authState result.2) = None →
  user (authState result.2) = user (authState p)
  ∧ isAuthenticated (authState result.2) = isAuthenticated (authState p)
  ∧ isLoading (authState result.2) = isLoading (authState p)
  ∧ ∃ newTokens,
      tokens (authState result.2) = Some newTokens
      ∧ store result.1 !! ACCESS_TOKEN = Some (accessToken newTokens)
      ∧ JS.truthy (refreshToken newTokens) = true.
Proof.
  cbv zeta. unfold AuthContext.refreshToken. plumbing.
  destruct (getTokens env w) as [[tokens|e] w1]; cbv beta iota.
  - destruct (negb (JS.truthy (option_bind _ _ refreshToken tokens))) eqn:Htr;
      cbv beta iota.
    + unfold AuthContext.logout.
      by destruct (AuthService.logout env w1) as [[[]|?] ?].
    + destruct (refreshAccessToken env _ w1) as [[nt|e] w2] eqn:Href;
        cbv beta iota.
      * destruct (refreshAccessToken_Ok _ _ _ _ _ Href) as [Hnew Hrt].
        intros _. cbn. split_and!; try done. exists nt.
        split_and!; try done. apply Hrt.
        apply negb_false_iff in Htr.
        by destruct (option_bind _ _ refreshToken tokens).
      * unfold AuthContext.logout.
        by destruct (AuthService.logout env w2) as [[[]|?] ?].
  - unfold AuthContext.logout.
    by destruct (AuthService.logout env w1) as [[[]|?] ?].
Qed.

(** *** X23
    In every state the provider passes through, an error never
    comes with [isLoading = true]. *)
Lemma setAuthState_settled f p :
  (∀ s, settled_when_failed (f s)) →
  Forall settled_when_failed (states p) →
  Forall settled_when_failed (states (setAuthState f p)).
Proof. intros Hf Hp. constructor; [apply Hf|done]. Qed.

Ltac settled :=
  let s := fresh "s" in let H := fresh "H" in
  intros s H; cbn in *; congruence.

Lemma logout_settled env w p :
  Forall settled_when_failed (states p) →
  Forall settled_when_failed (states (AuthContext.logout env w p).2).
Proof.
  intros Hp. unfold AuthContext.logout.
  destruct (AuthService.logout env w) as [[[]|e] w']; cbn [snd];
    repeat (apply setAuthState_settled; [settled|]); done.
Qed.

Theorem error_means_not_loading p :
  reachable p → Forall settled_when_failed (states p).
Proof.
  induction 1 as [|env op w p _ IH].
  - constructor; [intros H; cbn in H; congruence|constructor].
  - destruct op; cbn [perform].
    + unfold AuthContext.login.
      destruct (loginWithWorkOS env w) as [[[t u]|e] w']; cbn [snd];
        repeat (apply setAuthState_settled; [settled|]); done.
    + by apply logout_settled.
    + unfold AuthContext.refreshToken.
      match goal with
      | |- context [match ?m w with _ => _ end] =>
          destruct (m w) as [[t|e] w']
      end.
      * cbn [snd]. apply setAuthState_settled; [settled|done].
      * pose proof (logout_settled env w' p IH) as Hl.
        destruct (AuthContext.logout env w' p) as [w'' p'].
        cbn [snd] in *. apply setAuthState_settled; [settled|done].
    + cbn [snd]. apply setAuthState_settled; [settled|done].
    + unfold AuthContext.attemptSessionRestore.
      destruct (restoreSession env w) as [[[[t u]|]|e] w']; cbn [snd];
        (apply setAuthState_settled; [settled|done]).
Qed.

(** *** X24
    Route protection: in every reachable state, when the navigator
    shows the Home and Profile screens the state has a user and tokens,
    and when it shows the Login screen the state has no user. *)
Theorem RootNavigator_guards_routes p :
  reachable p →
  let s := authState p in
  (Screens.RootNavigator s = Screens.StackNavigator ["Home"; "Profile"] →
     user s ≠ None ∧ tokens s ≠ None)
  ∧ (Screens.RootNavigator s = Screens.StackNavigator ["Login"] →
     user s = None).
Proof.
  intros Hp. cbv zeta.
  pose proof (reachable_coherent p Hp) as Hc.
  apply Forall_cons in Hc as [[Hauth Htok] _].
  unfold Screens.RootNavigator. rewrite Hauth.
  destruct (isLoading (authState p)); [done|].
  destruct (user (authState p)) as [u|]; cbn; split; try done.
  intros _. split; [done|]. by apply Htok.
Qed.

(** *** X25
    Pressing the login button and then cancelling or dismissing the
    browser leaves the login screen on its form, with the
    ['Authentication Error'] alert raised and carrying
    ["Login was cancelled"]. *)
Theorem handleLogin_cancelled_alerts env w p :
  (prompt_async env (S (tick w)) (authRequest_at env w) = Ok ResultCancel
   ∨ prompt_async env (S (tick w)) (authRequest_at env w) = Ok ResultDismiss) →
  let s := authState (Screens.handleLogin env w p).2 in
  Screens.LoginScreen_alert s = Some "Login was cancelled"
  ∧ Screens.LoginScreen s = Screens.LoginForm.
Proof.
  intros Hprompt. cbv zeta. unfold Screens.handleLogin, AuthContext.login.
  destruct (loginWithWorkOS_without_code env w) as (e & -> & He).
  { intros code Hc. destruct Hprompt as [H|H]; by rewrite H in Hc. }
  by destruct Hprompt as [H|H]; rewrite H in He; subst e.
Qed.

End SessionExtras.

Section EnvironmentExtras.

Import Environment.

Lemma is_missing_redirectUri pe :
  is_missing (redirectUri (WORKOS_CONFIG pe))
  = match pe !! "EXPO_PUBLIC_WORKOS_REDIRECT_URI" with
    | Some v => JS.nonempty v && String.prefix "your_" v
    | None => false
    end.
Proof.
  cbn [WORKOS_CONFIG redirectUri]. unfold env_or, JS.or_else.
  destruct (pe !! _) as [v|]; [|done].
  destruct (JS.nonempty v) eqn:Hv; [|done].
  unfold is_missing. by rewrite Hv.
Qed.

Lemma is_missing_clientId pe :
  is_missing (clientId (WORKOS_CONFIG pe))
  = match pe !! "EXPO_PUBLIC_WORKOS_CLIENT_ID" with
    | Some v => negb (JS.nonempty v) || String.prefix "your_" v
    | None => true
    end.
Proof.
  cbn [WORKOS_CONFIG clientId]. unfold env_or, JS.or_else.
  destruct (pe !! _) as [v|]; [|done].
  destruct (JS.nonempty v) eqn:Hv; [|done].
  unfold is_missing. by rewrite Hv.
Qed.

(** The keys [validateEnvironmentConfig] reports. *)
Lemma validateEnvironmentConfig_cases workos appConfig :
  validateEnvironmentConfig workos appConfig
  = let missing :=
      app (if is_missing (clientId workos) then ["WORKOS_CLIENT_ID"] else [])
          (if is_missing (redirectUri workos) then ["WORKOS_REDIRECT_URI"]
           else []) in
    match missing with
    | [] => Ok []
    | _ =>
        if negb (String.eqb (environment appConfig) "development") then
          Throw (JsError
                   (("Missing required environment variables: "
                     +:+ String.concat ", " missing +:+ ". ")
                    +:+ "Please configure these in your .env file or environment."))
        else if debugMode appConfig then
          Ok [ "⚠️  Warning: Using placeholder values for environment variables. "
               +:+ "Please configure proper values for production use." ]
        else Ok []
    end.
Proof.
  unfold validateEnvironmentConfig. cbv zeta.
  rewrite !filter_cons, filter_nil. cbn [snd].
  destruct (is_missing (clientId workos));
    destruct (is_missing (redirectUri workos));
    repeat case_decide; try done; exfalso; cbn in *; lia.
Qed.

Lemma client_missing_iff (c : option string) :
  match c with
  | Some v => negb (JS.nonempty v) || String.prefix "your_" v
  | None => true
  end = true
  ↔ JS.truthy c = false
    ∨ match c with
      | Some v => JS.nonempty v && String.prefix "your_" v
      | None => false
      end = true.
Proof.
  destruct c as [v|]; [|split; [by left|done]]. unfold JS.nonempty.
  destruct (JS.truthy (Some v)), (String.prefix "your_" v); cbn;
    intuition congruence.
Qed.

(** *** X26
    Built from [process.env], the startup validation throws exactly
    when the environment is not ['development'] and either the client id
    variable is unset, empty or starts with ['your_'], or the redirect
    URI variable is set to a value starting with ['your_'].  An unset
    redirect URI never fails the validation. *)
Theorem validateEnvironmentConfig_throws pe expo_version :
  let client := pe !! "EXPO_PUBLIC_WORKOS_CLIENT_ID" in
  let redirect := pe !! "EXPO_PUBLIC_WORKOS_REDIRECT_URI" in
  let placeholder (v : option string) :=
    match v with
    | Some v => JS.nonempty v && String.prefix "your_" v
    | None => false
    end in
  (∃ e, validateEnvironmentConfig (WORKOS_CONFIG pe)
          (APP_CONFIG pe expo_version) = Throw e)
  ↔ environment (APP_CONFIG pe expo_version) ≠ "development"
    ∧ (JS.truthy client = false ∨ placeholder client = true
       ∨ placeholder redirect = true).
Proof.
  cbv zeta. rewrite validateEnvironmentConfig_cases. cbv zeta.
  rewrite is_missing_clientId, is_missing_redirectUri.
  pose proof (client_missing_iff (pe !! "EXPO_PUBLIC_WORKOS_CLIENT_ID"))
    as Hclient.
  revert Hclient.
  set (missing_client := match pe !! "EXPO_PUBLIC_WORKOS_CLIENT_ID" with
                         | Some v => _ | None => true end).
  set (missing_redirect := match pe !! "EXPO_PUBLIC_WORKOS_REDIRECT_URI" with
                           | Some v => _ | None => false end).
  set (environment_ := environment (APP_CONFIG pe expo_version)).
  intros Hclient.
  destruct (String.eqb_spec environment_ "development") as [Hd|Hd];
    destruct missing_client, missing_redirect; cbn [negb app];
    try destruct (debugMode _);
    (split; [intros [e He]; try done; intuition auto
            |intros [Hne Hmiss]; try done; try (by eexists);
             intuition congruence]).
Qed.

End EnvironmentExtras.

(* ===================================================================== *)
(** * The additional properties at work *)
(* ===================================================================== *)

Section AtWork.

Import TokenStorage TokenStorage.STORAGE_KEYS AuthService.

(** An entry of another component survives a logout. *)
Lemma only_storage_keys_change_settings :
  let w := {| store := <["app_settings" := "dark"]>
                         (store (Scenario.holding "4600000" None));
              tick := 0 |} in
  store (perform Scenario.cancelling OpLogout w Scenario.idle).1
    !! "app_settings" = Some "dark".
Proof.
  cbv zeta.
  destruct (only_storage_keys_change Scenario.cancelling OpLogout
              {| store := <["app_settings" := "dark"]>
                            (store (Scenario.holding "4600000" None));
                 tick := 0 |}
              Scenario.idle Scenario.a1 "app_settings") as (H & _).
  - intros Hin. unfold storage_keys in Hin.
    repeat (apply elem_of_cons in Hin as [Hin|Hin]; [discriminate Hin|]).
    by apply elem_of_nil in Hin.
  - rewrite H. reflexivity.
Defined.

Lemma reads_after_clearTokens_holding :
  let w' := (clearTokens Scenario.cancelling
               (Scenario.holding "4600000" (Some "r1"))).2 in
  (clearTokens Scenario.cancelling
     (Scenario.holding "4600000" (Some "r1"))).1 = Ok ()
  ∧ (getTokens Scenario.cancelling w').1 = Ok None
  ∧ (isTokenExpired Scenario.cancelling (Int 0) w').1 = Ok true
  ∧ (TokenStorage.getValidAccessToken Scenario.cancelling w').1 = Ok None.
Proof.
  apply (reads_after_clearTokens Scenario.cancelling
           (Scenario.holding "4600000" (Some "r1")) (Int 0)).
  intros k _. reflexivity.
Defined.

(** 100 s before expiry: expired under a 300 s buffer, hence under a
    600 s one. *)
Lemma isTokenExpired_monotone_600 :
  (isTokenExpired Scenario.cancelling (Int 600)
     (Scenario.holding "1100000" None)).1 = Ok true.
Proof.
  apply (isTokenExpired_monotone Scenario.cancelling
           (Scenario.holding "1100000" None) 300 600).
  - lia.
  - vm_compute. reflexivity.
Defined.

(** The spec's scenario: stored for 3600 s when the clock read 1000000,
    checked under a 300 s buffer five interactions later, at 1000500. *)
Lemma isTokenExpired_after_storeTokens_a1 :
  (isTokenExpired (Scenario.ticking Scenario.cancelling) (Int 300)
     (storeTokens (Scenario.ticking Scenario.cancelling) Scenario.a1
        Scenario.empty).2).1
  = Ok (bool_decide (1000000 + 3600 * 1000 - 1000500 ≤ 300 * 1000)).
Proof.
  apply (isTokenExpired_after_storeTokens
           (Scenario.ticking Scenario.cancelling) Scenario.empty
           Scenario.a1 3600 300).
  - intros k _. reflexivity.
  - reflexivity.
  - change (0 ≤ 1000000 ≤ 8640000000000000). lia.
  - change (0 ≤ 1000500 ≤ 8640000000000000). lia.
  - change (0 ≤ 1000000 + 3600 * 1000 ≤ 9007199254740991). lia.
  - change (- 9007199254740991 ≤ 300 * 1000 ≤ 9007199254740991). lia.
Defined.

Lemma storeTokens_NaN_never_expires_a1 :
  let t := {| accessToken := "a1"; refreshToken := None; idToken := None;
              expiresIn := NaN; tokenType := "Bearer" |} in
  store (storeTokens Scenario.cancelling t Scenario.empty).2 !! EXPIRES_AT
  = Some "NaN"
  ∧ (isTokenExpired Scenario.cancelling (Int 1000000000)
       (storeTokens Scenario.cancelling t Scenario.empty).2).1 = Ok false.
Proof.
  apply (storeTokens_NaN_never_expires Scenario.cancelling Scenario.empty
           {| accessToken := "a1"; refreshToken := None; idToken := None;
              expiresIn := NaN; tokenType := "Bearer" |} (Int 1000000000)).
  - intros k _. reflexivity.
  - reflexivity.
Defined.

(** The store rejects from the second write on: the old expiry ["0"]
    stays beside the new access token ["a2"]. *)
Lemma storeTokens_torn_write_a2 :
  let t := {| accessToken := "a2"; refreshToken := None; idToken := None;
              expiresIn := Int 3600; tokenType := "Bearer" |} in
  let result := storeTokens (failing_from 2) t (Scenario.holding "0" None) in
  result.1 = Throw (JsError "Failed to securely store authentication tokens")
  ∧ store result.2 !! ACCESS_TOKEN = Some "a2"
  ∧ store result.2 !! EXPIRES_AT = Some "0".
Proof.
  apply (storeTokens_torn_write (failing_from 2) (Scenario.holding "0" None)
           {| accessToken := "a2"; refreshToken := None; idToken := None;
              expiresIn := Int 3600; tokenType := "Bearer" |});
    reflexivity.
Defined.

Lemma getTokens_well_formed_holding :
  JS.nonempty "a1" = true
  ∧ JS.nonempty "Bearer" = true
  ∧ Some "r1" ≠ Some ""
  ∧ None ≠ Some ""
  ∧ (Int 3600 = NaN ∨ ∃ e, Int 3600 = Int e ∧ 0 ≤ e).
Proof.
  apply (getTokens_well_formed Scenario.cancelling
           (Scenario.holding "4600000" (Some "r1"))
           {| accessToken := "a1"; refreshToken := Some "r1";
              idToken := None; expiresIn := Int 3600;
              tokenType := "Bearer" |}
           (getTokens Scenario.cancelling
              (Scenario.holding "4600000" (Some "r1"))).2).
  vm_compute. reflexivity.
Defined.

Lemma storage_getValidAccessToken_holding :
  store (Scenario.holding "4600000" None) !! ACCESS_TOKEN = Some "a1"
  ∧ (isTokenExpired Scenario.cancelling (Int 300)
       (Scenario.holding "4600000" None)).1 = Ok false.
Proof.
  destruct (storage_getValidAccessToken_spec Scenario.cancelling
              (Scenario.holding "4600000" None)) as (r & Hr & H).
  apply H. vm_compute in Hr. by injection Hr as <-.
Defined.

Lemma generateCodeChallenge_43_hashing :
  ∃ challenge,
    generateCodeChallenge hashing "verifier" Scenario.empty
    = (Ok challenge, Scenario.empty)
    ∧ String.length challenge = 43%nat
    ∧ all_chars is_base64url_char challenge = true.
Proof.
  apply (generateCodeChallenge_43 hashing "verifier" Scenario.empty
           (replicate 32 Byte.xe3)); reflexivity.
Defined.

Lemma refreshAccessToken_failures_at_work :
  (∃ cause,
     AuthError REFRESH_FAILED "Failed to refresh access token"
       (Some (JsError "Network request failed"))
     = AuthError REFRESH_FAILED "Failed to refresh access token" (Some cause))
  ∧ (refreshAccessToken (failing_from 2) "r1"
       (Scenario.holding "0" (Some "r1"))).1
    = Throw (AuthError REFRESH_FAILED "Failed to refresh access token"
               (Some (JsError
                  "Failed to securely store authentication tokens"))).
Proof.
  split.
  - destruct (refreshAccessToken_failures Scenario.cancelling "r1"
                (Scenario.holding "0" (Some "r1"))) as [H _].
    apply (H _ (refreshAccessToken Scenario.cancelling "r1"
                  (Scenario.holding "0" (Some "r1"))).2).
    vm_compute. reflexivity.
  - destruct (refreshAccessToken_failures (failing_from 2) "r1"
                (Scenario.holding "0" (Some "r1"))) as [_ H].
    apply (H Scenario.short_lived); reflexivity.
Defined.

Lemma loginWithWorkOS_stops_when_cancelled :
  (∃ e, (loginWithWorkOS Scenario.cancelling Scenario.empty).1 = Throw e)
  ∧ (loginWithWorkOS Scenario.cancelling Scenario.empty).2
    = after_prompt Scenario.empty
  ∧ (AuthContext.login Scenario.cancelling Scenario.empty Scenario.idle).1
    = after_prompt Scenario.empty
  ∧ user (authState (AuthContext.login Scenario.cancelling Scenario.empty
                       Scenario.idle).2) = None
  ∧ tokens (authState (AuthContext.login Scenario.cancelling Scenario.empty
                         Scenario.idle).2) = None.
Proof.
  apply (loginWithWorkOS_stops_without_code Scenario.cancelling
           Scenario.empty Scenario.idle).
  intros code Hcode. vm_compute in Hcode. discriminate.
Defined.

Lemma loginWithWorkOS_success_hashing :
  store (loginWithWorkOS hashing Scenario.empty).2 !! ACCESS_TOKEN = Some "a2"
  ∧ authState (AuthContext.login hashing Scenario.empty Scenario.idle).2
    = authenticatedState
        {| id := "user_01"; email := "alice@example.com";
           firstName := Some "Alice"; lastName := None;
           profilePictureUrl := None; organizationId := None |}
        {| accessToken := "a2"; refreshToken := None; idToken := None;
           expiresIn := Int 60; tokenType := "Bearer" |}.
Proof.
  destruct (loginWithWorkOS_success hashing Scenario.empty Scenario.idle
              {| accessToken := "a2"; refreshToken := None; idToken := None;
                 expiresIn := Int 60; tokenType := "Bearer" |}
              {| id := "user_01"; email := "alice@example.com";
                 firstName := Some "Alice"; lastName := None;
                 profilePictureUrl := None; organizationId := None |}
              (loginWithWorkOS hashing Scenario.empty).2)
    as (_ & Ha & _ & _ & Hs).
  - vm_compute. reflexivity.
  - by split.
Defined.

Lemma login_fails_after_storing_unauthorized :
  let result :=
    AuthContext.login hashing_unauthorized Scenario.empty Scenario.idle in
  store result.1 !! ACCESS_TOKEN = Some "a2"
  ∧ store result.1 !! TOKEN_TYPE = Some "Bearer"
  ∧ user (authState result.2) = None
  ∧ tokens (authState result.2) = None
  ∧ error (authState result.2)
    = Some "Network error. Please check your connection and try again".
Proof.
  pose (env := hashing_unauthorized).
  pose (t := {| accessToken := "a2"; refreshToken := None; idToken := None;
                expiresIn := Int 60; tokenType := "Bearer" |}).
  pose (w3 := (exchangeCodeForTokens env "code_01"
                 (codeVerifier_at env Scenario.empty)
                 (after_prompt Scenario.empty)).2).
  pose (w4 := (storeTokens env t w3).2).
  pose (w5 := (fetchUserInfo env "a2" w4).2).
  apply (login_fails_after_storing env Scenario.empty Scenario.idle
           "code_01" t w3 w4
           (AuthError NETWORK_ERROR "Failed to fetch user information"
              (Some (JsError "Failed to fetch user info: 401")))
           w5).
  - reflexivity.
  - reflexivity.
  - vm_compute. reflexivity.
  - vm_compute. reflexivity.
  - vm_compute. reflexivity.
Defined.

Lemma login_error_messages_cancelled :
  let after :=
    authState (AuthContext.login Scenario.cancelling Scenario.empty
                 Scenario.idle).2 in
  error after = None ∨ ∃ msg, error after = Some msg ∧ msg ∈ login_messages.
Proof.
  apply (login_error_messages Scenario.cancelling Scenario.empty
           Scenario.idle).
  intros e He. vm_compute in He. discriminate.
Defined.

Lemma getValidAccessToken_total_refreshing :
  store (AuthService.getValidAccessToken Scenario.refreshing
           (Scenario.holding "0" (Some "r1"))).2 !! ACCESS_TOKEN
  = Some "a2".
Proof.
  destruct (getValidAccessToken_total Scenario.refreshing
              (Scenario.holding "0" (Some "r1"))) as (r & Hr & H).
  apply H. vm_compute in Hr. by injection Hr as <-.
Defined.

(** An expired token without a refresh token: the restore logs out and
    empties the store. *)
Lemma attemptSessionRestore_expired :
  let result :=
    AuthContext.attemptSessionRestore Scenario.cancelling
      (Scenario.holding "0" None) mount in
  authState result.2 = loggedOutState ∧ cleared (store result.1).
Proof.
  cbv zeta.
  destruct (attemptSessionRestore_outcomes Scenario.cancelling
              (Scenario.holding "0" None) mount)
    as [(Hs & _ & Hc)|(u & t & Hs & _)].
  - intros k _. reflexivity.
  - split; [exact Hs|]. apply Hc. vm_compute. discriminate.
  - vm_compute in Hs. discriminate.
Defined.

Lemma refreshToken_without_refresh_token_a1 :
  let result :=
    AuthContext.refreshToken Scenario.cancelling
      (Scenario.holding "4600000" None) Scenario.idle in
  authState result.2
  = {| user := None; tokens := None; isLoading := false;
       isAuthenticated := false;
       error := Some "Your session has expired. Please log in again" |}
  ∧ cleared (store result.1).
Proof.
  apply (refreshToken_without_refresh_token Scenario.cancelling
           (Scenario.holding "4600000" None) Scenario.idle).
  - intros k _. reflexivity.
  - reflexivity.
Defined.

Lemma refreshToken_success_r1 :
  let result :=
    AuthContext.refreshToken Scenario.refreshing
      (Scenario.holding "0" (Some "r1")) Scenario.idle in
  user (authState result.2) = None
  ∧ isAuthenticated (authState result.2) = false
  ∧ isLoading (authState result.2) = false
  ∧ ∃ newTokens,
      tokens (authState result.2) = Some newTokens
      ∧ store result.1 !! ACCESS_TOKEN = Some (accessToken newTokens)
      ∧ JS.truthy (refreshToken newTokens) = true.
Proof.
  apply (refreshToken_success Scenario.refreshing
           (Scenario.holding "0" (Some "r1")) Scenario.idle).
  vm_compute. reflexivity.
Defined.

Lemma error_means_not_loading_failed_login :
  Forall settled_when_failed
    (states (perform Scenario.unreachable_server OpLogin Scenario.empty
               (perform Scenario.unreachable_server OpSessionRestore
                  Scenario.empty mount).2).2).
Proof.
  apply error_means_not_loading.
  do 2 apply reachable_perform. apply reachable_mount.
Defined.

(** After a restored session the navigator shows Home and Profile, and
    the state has its user and tokens. *)
Lemma RootNavigator_guards_restored :
  let s :=
    authState (perform Scenario.unreachable_server OpSessionRestore
                 (Scenario.holding "4600000" None) mount).2 in
  user s ≠ None ∧ tokens s ≠ None.
Proof.
  cbv zeta.
  destruct (RootNavigator_guards_routes
              (perform Scenario.unreachable_server OpSessionRestore
                 (Scenario.holding "4600000" None) mount).2) as [H _].
  - apply reachable_perform, reachable_mount.
  - apply H. vm_compute. reflexivity.
Defined.

Lemma handleLogin_cancelled_alerts_idle :
  let s :=
    authState (Screens.handleLogin Scenario.cancelling Scenario.empty
                 Scenario.idle).2 in
  Screens.LoginScreen_alert s = Some "Login was cancelled"
  ∧ Screens.LoginScreen s = Screens.LoginForm.
Proof.
  apply (handleLogin_cancelled_alerts Scenario.cancelling Scenario.empty
           Scenario.idle).
  left. reflexivity.
Defined.

(** A production build without a client id does not start; the same
    build with a client id and no redirect URI does. *)
Lemma validateEnvironmentConfig_production :
  (∃ e, Environment.validateEnvironmentConfig
          (Environment.WORKOS_CONFIG
             {[ "EXPO_PUBLIC_ENVIRONMENT" := "production" ]})
          (Environment.APP_CONFIG
             {[ "EXPO_PUBLIC_ENVIRONMENT" := "production" ]} None)
        = Throw e)
  ∧ ¬ (∃ e, Environment.validateEnvironmentConfig
              (Environment.WORKOS_CONFIG
                 {[ "EXPO_PUBLIC_ENVIRONMENT" := "production";
                    "EXPO_PUBLIC_WORKOS_CLIENT_ID" := "client_01" ]})
              (Environment.APP_CONFIG
                 {[ "EXPO_PUBLIC_ENVIRONMENT" := "production";
                    "EXPO_PUBLIC_WORKOS_CLIENT_ID" := "client_01" ]} None)
            = Throw e).
Proof.
  split.
  - apply (validateEnvironmentConfig_throws
             {[ "EXPO_PUBLIC_ENVIRONMENT" := "production" ]} None).
    split; [vm_compute; discriminate|]. left. reflexivity.
  - intros H.
    apply (validateEnvironmentConfig_throws
             {[ "EXPO_PUBLIC_ENVIRONMENT" := "production";
                "EXPO_PUBLIC_WORKOS_CLIENT_ID" := "client_01" ]} None) in H.
    destruct H as [_ [H|[H|H]]]; vm_compute in H; discriminate.
Defined.

End AtWork.
